(** * TopGames catalogue API: a shallow embedding of [main.py]

    The handlers of [main.py] are modelled as functions over an explicit
    world (the module-level store handle [db] and the log of the operations
    sent to the store).  Python dictionaries are association lists with
    Python's update discipline; the store's query language is interpreted on
    the very dictionaries the handlers build. *)

From stdpp Require Import base option list strings pretty gmap.
From Stdlib Require Import ZArith Lia Ascii Sorting.Sorted.

Set Warnings "-register-all".

Local Open Scope string_scope.
Local Open Scope list_scope.
Local Open Scope Z_scope.

(** ** Values *)

(** JSON/BSON-like values held by documents and filters.  [VOid] is the
    store's opaque identifier, [VDate] a timestamp. *)
Inductive value :=
  | VNull
  | VBool (b : bool)
  | VInt (n : Z)
  | VStr (s : string)
  | VOid (o : N)
  | VDate (t : Z)
  | VList (l : list value)
  | VDict (kv : list (string * value)).

(** A Python [dict]: keys are unique and kept in insertion order. *)
Definition dict := list (string * value).

Module Dict.

(** [d.get(k)] / [d[k]] *)
Fixpoint get (k : string) (d : dict) : option value :=
  match d with
  | [] => None
  | (k', v) :: rest => if String.eqb k' k then Some v else get k rest
  end.

(** [k in d] *)
Definition has (k : string) (d : dict) : bool :=
  match get k d with Some _ => true | None => false end.

Fixpoint replace (k : string) (v : value) (d : dict) : dict :=
  match d with
  | [] => []
  | (k', v') :: rest =>
      if String.eqb k' k then (k', v) :: rest else (k', v') :: replace k v rest
  end.

(** [d[k] = v]: an existing key keeps its position, a new one is appended. *)
Definition set (k : string) (v : value) (d : dict) : dict :=
  if has k d then replace k v d else d ++ [(k, v)].

(** the dictionary left by [d.pop(k)] *)
Fixpoint remove (k : string) (d : dict) : dict :=
  match d with
  | [] => []
  | (k', v) :: rest =>
      if String.eqb k' k then remove k rest else (k', v) :: remove k rest
  end.

Definition keys (d : dict) : list string := map fst d.

End Dict.

(** ** What the handlers take from their environment *)

(** Python's [str], the regular-expression engine of the store and the
    store's order on the possibly missing values of a sort field are not
    part of [main.py], nor is the schema [Product] of [schemas.py]; the
    handlers are parametric in them.  [regex_valid] tells the patterns the
    engine accepts (the store raises on the others), [regex_search] what a
    search finds (pattern, options, subject), and [product_schema] checks
    the fields of a request body, giving the validated payload. *)
Class Runtime := {
  py_str : value → string;
  regex_valid : string → bool;
  regex_search : string → string → string → bool;
  sort_leb : option value → option value → bool;
  product_schema : dict → option dict;
}.

Section Shaping.
Context `{Runtime}.

(** [product_to_public] *)
Definition product_to_public (doc : dict) : dict :=
  let doc := doc (* [{**doc}]: the caller's dictionary is left alone *) in
  let doc :=
    match Dict.get "_id" doc with
    | Some oid => Dict.set "id" (VStr (py_str oid)) (Dict.remove "_id" doc)
    | None => doc
    end in
  let doc :=
    match Dict.get "created_at" doc with
    | Some t => Dict.set "created_at" (VStr (py_str t)) doc
    | None => doc
    end in
  let doc :=
    match Dict.get "updated_at" doc with
    | Some t => Dict.set "updated_at" (VStr (py_str t)) doc
    | None => doc
    end in
  doc.

End Shaping.

(** ** The store's query language *)

(** Equality of values as the store compares them in an equality condition. *)
Fixpoint value_eqb (a b : value) {struct a} : bool :=
  match a, b with
  | VNull, VNull => true
  | VBool x, VBool y => Bool.eqb x y
  | VInt x, VInt y => Z.eqb x y
  | VStr x, VStr y => String.eqb x y
  | VOid x, VOid y => N.eqb x y
  | VDate x, VDate y => Z.eqb x y
  | VList xs, VList ys =>
      (fix go (xs ys : list value) : bool :=
         match xs, ys with
         | [], [] => true
         | x :: xs', y :: ys' => value_eqb x y && go xs' ys'
         | _, _ => false
         end) xs ys
  | VDict xs, VDict ys =>
      (fix go (xs ys : list (string * value)) : bool :=
         match xs, ys with
         | [], [] => true
         | (k, x) :: xs', (k', y) :: ys' =>
             String.eqb k k' && value_eqb x y && go xs' ys'
         | _, _ => false
         end) xs ys
  | _, _ => false
  end.

Section Query.
Context `{Runtime}.

(** [{field: v}]: the field equals [v], or is an array with an element
    equal to [v]; a missing field only equals null. *)
Definition eq_match (v : value) (fv : option value) : bool :=
  match fv with
  | None => value_eqb VNull v
  | Some (VList l) => value_eqb (VList l) v || existsb (fun e => value_eqb e v) l
  | Some x => value_eqb x v
  end.

(** [{"$regex": p, "$options": o}] on one value: only strings match. *)
Definition regex_value (p o : string) (v : value) : bool :=
  match v with
  | VStr s => regex_search p o s
  | _ => false
  end.

(** The same condition on a field: the string itself, or some element of
    an array. *)
Definition regex_match (p o : string) (fv : option value) : bool :=
  match fv with
  | Some (VList l) => existsb (regex_value p o) l
  | Some v => regex_value p o v
  | None => false
  end.

(** Pattern and options of an operator document with a [$regex]. *)
Definition regex_of (ops : dict) : option (string * string) :=
  match Dict.get "$regex" ops with
  | Some (VStr p) =>
      Some (p, match Dict.get "$options" ops with
               | Some (VStr o) => o
               | _ => ""
               end)
  | _ => None
  end.

(** An operator document applied to one array element ([$elemMatch]). *)
Definition elem_cond (ops : dict) (e : value) : bool :=
  match regex_of ops with
  | Some (p, o) => regex_value p o e
  | None => false
  end.

(** [{"$elemMatch": ops}]: the field is an array and one element
    satisfies [ops]. *)
Definition elem_match (ops : dict) (fv : option value) : bool :=
  match fv with
  | Some (VList l) => existsb (elem_cond ops) l
  | _ => false
  end.

(** The condition attached to one field of a filter.  Of the store's
    operators, those the handlers use are interpreted: [$elemMatch],
    [$regex] with [$options], and plain equality. *)
Definition field_cond (c : value) (fv : option value) : bool :=
  match c with
  | VDict ops =>
      match Dict.get "$elemMatch" ops with
      | Some (VDict inner) => elem_match inner fv
      | Some _ => false
      | None =>
          match regex_of ops with
          | Some (p, o) => regex_match p o fv
          | None => eq_match c fv
          end
      end
  | _ => eq_match c fv
  end.

(** A filter document holds for [doc] when all its entries do; the entry
    [$or] holds when one of the listed filters does. *)
Fixpoint matches_value (f : value) (doc : dict) {struct f} : bool :=
  match f with
  | VDict clauses =>
      (fix all (cs : list (string * value)) : bool :=
         match cs with
         | [] => true
         | (k, c) :: rest =>
             (if String.eqb k "$or" then
                match c with
                | VList alts =>
                    (fix any (xs : list value) : bool :=
                       match xs with
                       | [] => false
                       | x :: xs' => matches_value x doc || any xs'
                       end) alts
                | _ => false
                end
              else field_cond c (Dict.get k doc))
             && all rest
         end) clauses
  | _ => false
  end.

Definition matches (filter doc : dict) : bool := matches_value (VDict filter) doc.

(** The store accepts a filter when every [$regex] in it is a pattern its
    engine accepts. *)
Fixpoint valid_value (f : value) : bool :=
  match f with
  | VDict entries =>
      (fix all (es : list (string * value)) : bool :=
         match es with
         | [] => true
         | (k, v) :: rest =>
             (if String.eqb k "$regex" then
                match v with
                | VStr p => regex_valid p
                | _ => false
                end
              else valid_value v)
             && all rest
         end) entries
  | VList items =>
      (fix all (xs : list value) : bool :=
         match xs with
         | [] => true
         | x :: xs' => valid_value x && all xs'
         end) items
  | _ => true
  end.

Definition valid_filter (filter : dict) : bool := valid_value (VDict filter).

(** One entry of a filter, as [matches] reads it. *)
Definition clause (k : string) (c : value) (doc : dict) : bool :=
  if String.eqb k "$or" then
    match c with
    | VList alts => existsb (fun x => matches_value x doc) alts
    | _ => false
    end
  else field_cond c (Dict.get k doc).

(** *** Ordering *)

(** [a] may come before [b] when sorting on [field] in [direction]
    (negative: descending). *)
Definition before (field : string) (direction : Z) (a b : dict) : bool :=
  if direction <? 0
  then sort_leb (Dict.get field b) (Dict.get field a)
  else sort_leb (Dict.get field a) (Dict.get field b).

Fixpoint insert_by (le : dict → dict → bool) (x : dict) (l : list dict) : list dict :=
  match l with
  | [] => [x]
  | y :: rest => if le x y then x :: y :: rest else y :: insert_by le x rest
  end.

(** Sorting a list of documents.  The store leaves the order of documents
    with equal keys open; here they keep their natural order. *)
Definition sort_by (le : dict → dict → bool) (l : list dict) : list dict :=
  foldr (insert_by le) [] l.

End Query.

(** ** Cursors and the database *)

(** A pymongo cursor: built by [find], refined by [sort] and [limit], and
    sent to the store when it is listed. *)
Record cursor := Cursor {
  c_coll : string;
  c_filter : dict;
  c_order : option (string * Z);
  c_limit : Z;
}.

Module Mongo.

Definition find (coll : string) (filter : dict) : cursor :=
  Cursor coll filter None 0.

Definition sort (field : string) (direction : Z) (c : cursor) : cursor :=
  Cursor (c_coll c) (c_filter c) (Some (field, direction)) (c_limit c).

Definition limit (n : Z) (c : cursor) : cursor :=
  Cursor (c_coll c) (c_filter c) (c_order c) n.

End Mongo.

(** The store: each collection in its natural order, the next identifier
    the store will assign, and the store's clock. *)
Record database := Database {
  collections : gmap string (list dict);
  next_oid : N;
  now : Z;
}.

Definition collection (d : database) (coll : string) : list dict :=
  default [] (collections d !! coll).

Section Run.
Context `{Runtime}.

(** What the store answers to a cursor.  A limit of 0 means no limit, a
    negative one is taken by its absolute value. *)
Definition run (d : database) (c : cursor) : list dict :=
  let matched := List.filter (matches (c_filter c)) (collection d (c_coll c)) in
  let ordered :=
    match c_order c with
    | Some (field, direction) => sort_by (before field direction) matched
    | None => matched
    end in
  if c_limit c =? 0 then ordered else take (Z.abs_nat (c_limit c)) ordered.

End Run.

(** ** The world of a request *)

(** Operations sent to the store. *)
Inductive event :=
  | Find (c : cursor)
  | Insert (coll : string) (doc : dict).

(** The module-level handle [db] ([None] when no store is connected) and
    the operations sent to the store so far. *)
Record world := World {
  db : option database;
  log : list event;
}.

(** A Python call either returns or raises an [HTTPException]. *)
Inductive outcome (A : Type) :=
  | Returned (a : A)
  | Raised (status : Z) (detail : string).
Arguments Returned {A} a.
Arguments Raised {A} status detail.

Definition handler (A : Type) : Type := world → outcome A * world.

Definition ret {A} (a : A) : handler A := λ w, (Returned a, w).

Definition raise {A} (status : Z) (detail : string) : handler A :=
  λ w, (Raised status detail, w).

Definition bind {A B} (m : handler A) (k : A → handler B) : handler B :=
  λ w, match m w with
       | (Returned a, w') => k a w'
       | (Raised s d, w') => (Raised s d, w')
       end.

Notation "x <- m ;; k" := (bind m (λ x, k))
  (at level 100, m at next level, right associativity, only parsing).

(** [db is None] *)
Definition db_is_none : handler bool :=
  λ w, (Returned (match db w with None => true | Some _ => false end), w).

(** What the framework sends back: the handler's value as JSON under the
    route's status code, the [HTTPException] a handler raised, or the 422 of
    a request whose parameters fail their declared constraints. *)
Inductive reply (A : Type) :=
  | Json (status : Z) (body : A)
  | HttpError (status : Z) (detail : string)
  | Unprocessable.
Arguments Json {A} status body.
Arguments HttpError {A} status detail.
Arguments Unprocessable {A}.

Definition status {A} (r : reply A) : Z :=
  match r with
  | Json s _ => s
  | HttpError s _ => s
  | Unprocessable => 422
  end.

Definition respond {A} (code : Z) (h : handler A) : world → reply A * world :=
  λ w, match h w with
       | (Returned a, w') => (Json code a, w')
       | (Raised s d, w') => (HttpError s d, w')
       end.

(** [Query(default, ge=lo, le=hi)] on an [int] parameter: the default when
    the parameter is absent, the value when it lies within the bounds, and
    no value (the request is refused) otherwise. *)
Definition Query (default lo hi : Z) (raw : option Z) : option Z :=
  match raw with
  | None => Some default
  | Some v => if (lo <=? v) && (v <=? hi) then Some v else None
  end.

(** [l[:n]] *)
Definition slice_to {A} (n : Z) (l : list A) : list A :=
  if 0 <=? n then take (Z.to_nat n) l
  else take (length l - Z.to_nat (- n))%nat l.

(** Truth value of a Python string. *)
Definition truthy (s : string) : bool := negb (String.eqb s "").

Section Handlers.
Context `{Runtime}.

(** [list(cursor)]: the query goes to the store, which answers it or, for
    a filter it does not accept, raises; an exception no handler catches
    ends the request with status 500. *)
Definition to_list (c : cursor) : handler (list dict) :=
  λ w, match db w with
       | Some d =>
           if valid_filter (c_filter c)
           then (Returned (run d c), World (db w) (log w ++ [Find c]))
           else (Raised 500 "Internal Server Error",
                 World (db w) (log w ++ [Find c]))
       | None => (Raised 500 "Internal Server Error", w)
       end.

(** Modelled from the spec: [get_documents] of [database.py], which is not
    among the sources.  "find(collectionName, filter, limit)" returns up to
    [limit] records matching [filter], in the store's natural order. *)
Definition get_documents (coll : string) (filter : dict) (lim : Z)
  : handler (list dict) :=
  to_list (Mongo.limit lim (Mongo.find coll filter)).

(** Modelled from the spec: the record [database.py] hands to the store
    for a payload.  The identifier and [created_at] are assigned at
    insertion, never supplied by the client. *)
Definition stored_record (d : database) (payload : dict) : dict :=
  Dict.set "_id" (VOid (next_oid d))
    (Dict.set "created_at" (VDate (now d)) payload).

(** The store after [insert_one]: the record ends the collection, the
    identifier is used up. *)
Definition insert_one (coll : string) (rec : dict) (d : database) : database :=
  Database (<[coll := collection d coll ++ [rec]]> (collections d))
           (N.succ (next_oid d)) (now d).

(** Modelled from the spec: [create_document] of [database.py], which is
    not among the sources.  "insert(collectionName, record)" persists the
    record into the named collection and returns the newly assigned
    identifier as a string; it fails when the store is unreachable. *)
Definition create_document (coll : string) (payload : dict) : handler string :=
  λ w, match db w with
       | Some d =>
           let rec := stored_record d payload in
           (Returned (py_str (VOid (next_oid d))),
            World (Some (insert_one coll rec d)) (log w ++ [Insert coll rec]))
       | None => (Raised 500 "Internal Server Error", w)
       end.


(** The [filters] dictionary of [list_products]. *)
Definition list_products_filters (category q : option string) : dict :=
  let filters := [] in
  let filters :=
    match category with
    | Some c => if truthy c then Dict.set "category" (VStr c) filters else filters
    | None => filters
    end in
  let filters :=
    match q with
    | Some q =>
        if truthy q then
          Dict.set "$or" (VList [
            VDict [("title", VDict [("$regex", VStr q); ("$options", VStr "i")])];
            VDict [("description", VDict [("$regex", VStr q); ("$options", VStr "i")])];
            VDict [("tags", VDict [("$elemMatch",
                      VDict [("$regex", VStr q); ("$options", VStr "i")])])]
          ]) filters
        else filters
    | None => filters
    end in
  filters.

(** The body of [list_products], run once its parameters are accepted. *)
Definition list_products_body (category q : option string) (lim : Z)
  : handler (list dict) :=
  none <- db_is_none ;;
  if none : bool then ret []
  else
    docs <- get_documents "product" (list_products_filters category q) lim ;;
    ret (map product_to_public docs).

(** [list_products], behind [GET /api/products]. *)
Definition list_products (category q : option string) (lim : option Z)
  : world → reply (list dict) * world :=
  match Query 12 1 50 lim with
  | Some lim => respond 200 (list_products_body category q lim)
  | None => λ w, (Unprocessable, w)
  end.

(** The body of [create_product]. *)
Definition create_product_body (payload : dict) : handler dict :=
  none <- db_is_none ;;
  if none : bool then raise 500 "Database non disponibile"
  else
    inserted_id <- create_document "product" payload ;;
    ret [("id", VStr inserted_id)].

(** The check of a request body against [ProductCreate]: a body that is
    no JSON object is refused, the fields of an object are checked by the
    schema. *)
Definition ProductCreate (body : value) : option dict :=
  match body with
  | VDict fields => product_schema fields
  | _ => None
  end.

(** [create_product], behind [POST /api/products] with status 201: the
    framework checks the body against [ProductCreate] before the handler
    runs. *)
Definition create_product (body : value) : world → reply dict * world :=
  match ProductCreate body with
  | Some payload => respond 201 (create_product_body payload)
  | None => λ w, (Unprocessable, w)
  end.

(** The body of [featured_products]. *)
Definition featured_products_body (lim : Z) : handler (list dict) :=
  none <- db_is_none ;;
  if none : bool then ret []
  else
    found <- to_list (Mongo.limit lim
               (Mongo.find "product" [("tags", VStr "featured")])) ;;
    found <- (if Z.of_nat (length found) <? lim then
                more <- to_list (Mongo.limit (lim - Z.of_nat (length found))
                          (Mongo.sort "created_at" (-1) (Mongo.find "product" []))) ;;
                ret (found ++ more)
              else ret found) ;;
    ret (map product_to_public (slice_to lim found)).

(** [featured_products], behind [GET /api/featured]. *)
Definition featured_products (lim : option Z) : world → reply (list dict) * world :=
  match Query 8 1 12 lim with
  | Some lim => respond 200 (featured_products_body lim)
  | None => λ w, (Unprocessable, w)
  end.

End Handlers.

(** ** The routes outside the catalogue *)

(** [read_root] *)
Definition read_root : world → reply dict * world :=
  respond 200 (ret [("message", VStr "TopGames API attiva")]).

(** [hello] *)
Definition hello : world → reply dict * world :=
  respond 200 (ret [("message", VStr "Ciao da TopGames Backend!")]).

(** What a call that may raise comes to: its value, or the message of the
    exception. *)
Inductive attempt (A : Type) :=
  | Done (a : A)
  | Failed (msg : string).
Arguments Done {A} a.
Arguments Failed {A} msg.

(** What [test_database] reads besides [db]: the environment of the
    process, what reading the attribute [name] of the handle comes to (no
    such attribute, its value, or an exception), and the exception, if any,
    that listing the collections raises. *)
Record probe := Probe {
  environ : gmap string string;
  name_attr : attempt (option value);
  listing_error : option string;
}.

(** [os.getenv(k)] *)
Definition getenv (p : probe) (k : string) : option string := environ p !! k.

(** [X if os.getenv(k) else Y], for the two texts of the source. *)
Definition set_flag (p : probe) (k : string) : value :=
  VStr (if match getenv p k with Some s => truthy s | None => false end
        then "✅ Set" else "❌ Not Set").

(** [db.list_collection_names()] *)
Definition list_collection_names (p : probe) (d : database) : attempt (list string) :=
  match listing_error p with
  | Some msg => Failed msg
  | None => Done (map_to_list (collections d)).*1
  end.

(** A byte that continues a character of a text in UTF-8 (10xxxxxx). *)
Definition continuation (c : Ascii.ascii) : bool :=
  let n := Ascii.nat_of_ascii c in ((128 <=? n) && (n <? 192))%nat.

(** [s[:n]]: the first [n] characters of a text held in UTF-8; the bytes
    that continue a character stay with it. *)
Fixpoint first_chars (n : nat) (s : string) : string :=
  match s with
  | EmptyString => EmptyString
  | String c rest =>
      if continuation c then String c (first_chars n rest)
      else match n with
           | O => EmptyString
           | S n' => String c (first_chars n' rest)
           end
  end.

(** [len(s)]: the number of characters of a text held in UTF-8. *)
Fixpoint char_count (s : string) : nat :=
  match s with
  | EmptyString => 0
  | String c rest => ((if continuation c then 0 else 1) + char_count rest)%nat
  end.

(** [str(e)[:50]]: at most the first 50 characters of the message. *)
Definition short (msg : string) : string := first_chars 50 msg.

(** [test_database], behind [GET /test].  The outer [try] covers the
    reading of [name], the inner one the listing of the collections; the
    two assignments after the [try] are made on every path. *)
Definition test_database (p : probe) : world → reply dict * world :=
  respond 200 (λ w,
    let response :=
      [("backend", VStr "✅ Running");
       ("database", VStr "❌ Not Available");
       ("database_url", VNull);
       ("database_name", VNull);
       ("connection_status", VStr "Not Connected");
       ("collections", VList [])] in
    let response :=
      match db w with
      | Some d =>
          let response := Dict.set "database" (VStr "✅ Available") response in
          let response :=
            Dict.set "database_url" (set_flag p "DATABASE_URL") response in
          match name_attr p with
          | Done name =>
              let response :=
                Dict.set "database_name" (default (VStr "✅ Connected") name)
                  response in
              let response :=
                Dict.set "connection_status" (VStr "Connected") response in
              match list_collection_names p d with
              | Done collections =>
                  let response :=
                    Dict.set "collections" (VList (map VStr (take 10 collections)))
                      response in
                  Dict.set "database" (VStr "✅ Connected & Working") response
              | Failed e =>
                  Dict.set "database"
                    (VStr ("⚠️  Connected but Error: " +:+ short e)) response
              end
          | Failed e =>
              Dict.set "database" (VStr ("❌ Error: " +:+ short e)) response
          end
      | None =>
          Dict.set "database" (VStr "⚠️  Available but not initialized") response
      end in
    let response := Dict.set "database_url" (set_flag p "DATABASE_URL") response in
    let response := Dict.set "database_name" (set_flag p "DATABASE_NAME") response in
    (Returned response, w)).

(** * The vocabulary of the claims *)

(** A record as the store hands it out carries its identifier. *)
Definition stored (doc : dict) : Prop := is_Some (Dict.get "_id" doc).

(** A shaped record: a string under [id], nothing under [_id]. *)
Definition public (doc : dict) : Prop :=
  Dict.get "_id" doc = None ∧ ∃ s, Dict.get "id" doc = Some (VStr s).

Section Stringified.
Context `{Runtime}.

(** A value replaced by its string. *)
Definition stringified (v : value) : value := VStr (py_str v).

End Stringified.

(** The conditions of the catalogue, stated on a document directly. *)

(** [v] is the text [s]. *)
Definition is_text (s : string) (v : value) : bool :=
  match v with
  | VStr t => String.eqb t s
  | _ => false
  end.

(** Field [k] is the text [s], or an array holding the text [s]. *)
Definition field_equals (k s : string) (doc : dict) : bool :=
  match Dict.get k doc with
  | Some (VList l) => existsb (is_text s) l
  | Some v => is_text s v
  | None => false
  end.

Section Search.
Context `{Runtime}.

(** The store's search for pattern [p], letters compared without case,
    finds something in the text [v]. *)
Definition found_in (p : string) (v : value) : bool :=
  match v with
  | VStr s => regex_search p "i" s
  | _ => false
  end.

(** The search succeeds on field [k]: on its text, or on a text of the
    array it holds. *)
Definition field_searched (k p : string) (doc : dict) : bool :=
  match Dict.get k doc with
  | Some (VList l) => existsb (found_in p) l
  | Some v => found_in p v
  | None => false
  end.

(** Field [k] is an array and the search succeeds on one of its
    elements. *)
Definition element_searched (k p : string) (doc : dict) : bool :=
  match Dict.get k doc with
  | Some (VList l) => existsb (found_in p) l
  | _ => false
  end.

End Search.

(** What a text parameter contributes: its value when it is present and
    not empty. *)
Definition given (o : option string) : option string :=
  match o with
  | Some s => if truthy s then Some s else None
  | None => None
  end.

(** The alternatives the filter lists under [$or] for the text [p]. *)
Definition alternatives (p : string) : value :=
  VList [
    VDict [("title", VDict [("$regex", VStr p); ("$options", VStr "i")])];
    VDict [("description", VDict [("$regex", VStr p); ("$options", VStr "i")])];
    VDict [("tags", VDict [("$elemMatch",
              VDict [("$regex", VStr p); ("$options", VStr "i")])])]
  ].


(** [limit] taken into the range, as the words "clamped to [lo, hi]" have
    it. *)
Definition clamp (lo hi v : Z) : Z := Z.max lo (Z.min hi v).

(** A [limit] parameter the framework lets through: absent, or within the
    bounds. *)
Definition accepted (lo hi : Z) (lim : option Z) : Prop :=
  match lim with
  | Some v => lo ≤ v ≤ hi
  | None => True
  end.

(** The operations an event may be for the featured endpoint: a query on
    the products with a limit between 1 and 12. *)
Definition bounded_find (e : event) : Prop :=
  ∃ c, e = Find c ∧ c_coll c = "product" ∧ 1 ≤ c_limit c ≤ 12.

(** A variable of the environment is set: present and not empty. *)
Definition env_set (p : probe) (k : string) : Prop :=
  ∃ s, environ p !! k = Some s ∧ s ≠ "".

(** *** Plain text in a search *)

(** [c] is one of the characters of [s]. *)
Fixpoint has_char (c : Ascii.ascii) (s : string) : bool :=
  match s with
  | EmptyString => false
  | String c' rest => Ascii.eqb c c' || has_char c rest
  end.

Fixpoint all_chars (f : Ascii.ascii → bool) (s : string) : bool :=
  match s with
  | EmptyString => true
  | String c rest => f c && all_chars f rest
  end.

(** The characters that have a meaning of their own in a pattern. *)
Definition metachar (c : Ascii.ascii) : bool := has_char c "\^$.|?*+()[]{}".




(** [p] is the beginning of [s]. *)
Fixpoint starts_with (p s : string) : bool :=
  match p, s with
  | EmptyString, _ => true
  | String pc p', String sc s' => Ascii.eqb pc sc && starts_with p' s'
  | String _ _, EmptyString => false
  end.






Section Engine.
Context `{Runtime}.


End Engine.

(** ** A runtime to run the handlers on examples *)

Module Sample.

Definition lower_ascii (c : Ascii.ascii) : Ascii.ascii :=
  let n := Ascii.nat_of_ascii c in
  if ((65 <=? n) && (n <=? 90))%nat then Ascii.ascii_of_nat (n + 32) else c.

Fixpoint lower (s : string) : string :=
  match s with
  | EmptyString => EmptyString
  | String c rest => String (lower_ascii c) (lower rest)
  end.

(** [p] occurs in [s]. *)
Fixpoint contains (p s : string) : bool :=
  String.prefix p s ||
  match s with
  | EmptyString => false
  | String _ rest => contains p rest
  end.

(** One character of a pattern against one character of the subject: [.]
    stands for any character but a line feed, any other character for
    itself. *)
Definition char_matches (pc sc : Ascii.ascii) : bool :=
  if Ascii.eqb pc "."%char then negb (Ascii.eqb sc "010"%char) else Ascii.eqb pc sc.

(** The pattern matches at the start of the subject. *)
Fixpoint matches_here (p s : string) : bool :=
  match p, s with
  | EmptyString, _ => true
  | String pc p', String sc s' => char_matches pc sc && matches_here p' s'
  | String _ _, EmptyString => false
  end.

(** The pattern matches somewhere in the subject. *)
Fixpoint matches_somewhere (p s : string) : bool :=
  matches_here p s ||
  match s with
  | EmptyString => false
  | String _ rest => matches_somewhere p rest
  end.

(** Regular-expression search for the patterns made of plain characters
    and [.]; letters are compared without case under option [i]. *)
Definition simple_search (p o s : string) : bool :=
  if contains "i" o then matches_somewhere (lower p) (lower s)
  else matches_somewhere p s.

(** Identifiers and timestamps print as their number. *)
Definition show (v : value) : string :=
  match v with
  | VNull => "None"
  | VBool true => "True"
  | VBool false => "False"
  | VInt n => pretty n
  | VStr s => s
  | VOid o => pretty o
  | VDate t => pretty t
  | VList _ => "[...]"
  | VDict _ => "{...}"
  end.

(** Timestamps by time; anything else, or no value, sorts below them. *)
Definition date_leb (a b : option value) : bool :=
  match a, b with
  | Some (VDate x), Some (VDate y) => x <=? y
  | Some (VDate _), _ => false
  | _, _ => true
  end.

(** The patterns this engine knows: plain characters and [.]; a pattern
    with another metacharacter is refused. *)
Definition simple_pattern (p : string) : bool :=
  all_chars (λ c, Ascii.eqb c "."%char || negb (metachar c)) p.

(** A schema for the examples: a product needs a text under [title]. *)
Definition titled (fields : dict) : option dict :=
  match Dict.get "title" fields with
  | Some (VStr _) => Some fields
  | _ => None
  end.

Definition runtime : Runtime :=
  {| py_str := show; regex_valid := simple_pattern;
     regex_search := simple_search; sort_leb := date_leb;
     product_schema := titled |}.

Definition product (oid : N) (title category : string) (tags : list string)
    (created : Z) : dict :=
  [("_id", VOid oid); ("title", VStr title); ("description", VStr "");
   ("category", VStr category); ("tags", VList (map VStr tags));
   ("created_at", VDate created)].

Definition store (docs : list dict) : world :=
  World (Some (Database {["product" := docs]} 100 1000)) [].

Definition offline : world := World None [].

End Sample.

(** * Properties *)

(** ** Dictionaries *)

Section DictFacts.

Lemma get_replace_eq k v d :
  Dict.has k d = true → Dict.get k (Dict.replace k v d) = Some v.
Proof.
  unfold Dict.has. induction d as [|[k' v'] d IH]; simpl; [done|].
  destruct (String.eqb k' k) eqn:E; simpl; rewrite E; auto.
Qed.

Lemma get_replace_ne k k' v d :
  k ≠ k' → Dict.get k' (Dict.replace k v d) = Dict.get k' d.
Proof.
  intros Hne. induction d as [|[k0 v0] d IH]; simpl; [done|].
  destruct (String.eqb k0 k) eqn:E; simpl.
  - apply String.eqb_eq in E. subst k0.
    destruct (String.eqb k k') eqn:E'; [|done].
    apply String.eqb_eq in E'. done.
  - by rewrite IH.
Qed.

Lemma get_app k d1 d2 :
  Dict.get k (d1 ++ d2) =
  match Dict.get k d1 with Some v => Some v | None => Dict.get k d2 end.
Proof.
  induction d1 as [|[k0 v0] d1 IH]; simpl; [done|].
  by destruct (String.eqb k0 k).
Qed.

Lemma get_set_eq k v d : Dict.get k (Dict.set k v d) = Some v.
Proof.
  unfold Dict.set. destruct (Dict.has k d) eqn:E.
  - by apply get_replace_eq.
  - rewrite get_app. unfold Dict.has in E.
    destruct (Dict.get k d); [done|]. simpl. by rewrite String.eqb_refl.
Qed.

Lemma get_set_ne k k' v d :
  k ≠ k' → Dict.get k' (Dict.set k v d) = Dict.get k' d.
Proof.
  intros Hne. unfold Dict.set. destruct (Dict.has k d).
  - by apply get_replace_ne.
  - rewrite get_app. destruct (Dict.get k' d); [done|]. simpl.
    destruct (String.eqb k k') eqn:E; [|done].
    apply String.eqb_eq in E. done.
Qed.

Lemma get_remove_eq k d : Dict.get k (Dict.remove k d) = None.
Proof.
  induction d as [|[k0 v0] d IH]; simpl; [done|].
  destruct (String.eqb k0 k) eqn:E; simpl; [done|]. by rewrite E.
Qed.

Lemma get_remove_ne k k' d :
  k ≠ k' → Dict.get k' (Dict.remove k d) = Dict.get k' d.
Proof.
  intros Hne. induction d as [|[k0 v0] d IH]; simpl; [done|].
  destruct (String.eqb k0 k) eqn:E; simpl.
  - apply String.eqb_eq in E. subst k0.
    destruct (String.eqb k k') eqn:E'; [|done].
    apply String.eqb_eq in E'. done.
  - by rewrite IH.
Qed.

End DictFacts.

(** ** Values *)

(** Induction on values that reaches the elements of arrays and the fields
    of sub-documents. *)
Section ValueInduction.
Variable P : value → Prop.
Hypothesis Hnull : P VNull.
Hypothesis Hbool : ∀ b, P (VBool b).
Hypothesis Hint : ∀ n, P (VInt n).
Hypothesis Hstr : ∀ s, P (VStr s).
Hypothesis Hoid : ∀ o, P (VOid o).
Hypothesis Hdate : ∀ t, P (VDate t).
Hypothesis Hlist : ∀ l, Forall P l → P (VList l).
Hypothesis Hdict : ∀ kv, Forall (λ e, P (snd e)) kv → P (VDict kv).

Fixpoint value_nested_ind (v : value) : P v :=
  match v with
  | VNull => Hnull
  | VBool b => Hbool b
  | VInt n => Hint n
  | VStr s => Hstr s
  | VOid o => Hoid o
  | VDate t => Hdate t
  | VList l =>
      Hlist l
        ((fix go (l : list value) : Forall P l :=
            match l with
            | [] => @List.Forall_nil _ P
            | x :: xs => @List.Forall_cons _ P x xs (value_nested_ind x) (go xs)
            end) l)
  | VDict kv =>
      Hdict kv
        ((fix go (kv : list (string * value)) : Forall (λ e, P (snd e)) kv :=
            match kv with
            | [] => @List.Forall_nil _ _
            | (k, x) :: rest =>
                @List.Forall_cons _ (λ e, P (snd e)) (k, x) rest (value_nested_ind x) (go rest)
            end) kv)
  end.

End ValueInduction.

(** [value_eqb] decides equality. *)
Lemma value_eqb_eq a b : value_eqb a b = true ↔ a = b.
Proof.
  revert b. induction a as [| | | | | |l IH|kv IH] using value_nested_ind;
    intros [| | | | | |l'|kv']; simpl; try (split; [done|by intros [=]]).
  - rewrite Bool.eqb_true_iff. split; [by intros ->|by intros [=]].
  - rewrite Z.eqb_eq. split; [by intros ->|by intros [=]].
  - rewrite String.eqb_eq. split; [by intros ->|by intros [=]].
  - rewrite N.eqb_eq. split; [by intros ->|by intros [=]].
  - rewrite Z.eqb_eq. split; [by intros ->|by intros [=]].
  - revert l'. induction IH as [|x xs Hx _ IHxs]; intros [|y ys];
      try (split; [done|by intros [=]]).
    rewrite andb_true_iff, Hx, IHxs. split.
    + by intros [-> [= ->]].
    + by intros [= -> ->].
  - revert kv'. induction IH as [|[k x] xs Hx _ IHxs]; intros [|[k' y] ys];
      try (split; [done|by intros [=]]).
    simpl in Hx. rewrite !andb_true_iff, String.eqb_eq, Hx, IHxs. split.
    + by intros [[-> ->] [= ->]].
    + by intros [= -> -> ->].
Qed.

(** ** Response shaping *)

(** Case analysis on whether the key [k] is the literal [s]. *)
Ltac on_key k s :=
  destruct (decide (k = s)) as [->|?];
  [ rewrite ?bool_decide_eq_true_2 by auto
  | rewrite (bool_decide_eq_false_2 (k = s)) by assumption ].

Section ShapingFacts.
Context `{Runtime}.

Lemma shaped_timestamps d :
  let d' :=
    match Dict.get "created_at" d with
    | Some t => Dict.set "created_at" (VStr (py_str t)) d
    | None => d
    end in
  let d'' :=
    match Dict.get "updated_at" d' with
    | Some t => Dict.set "updated_at" (VStr (py_str t)) d'
    | None => d'
    end in
  ∀ k, Dict.get k d'' =
       if bool_decide (k = "created_at" ∨ k = "updated_at")
       then stringified <$> Dict.get k d
       else Dict.get k d.
Proof.
  intros d' d'' k.
  assert (Hd' : ∀ j, Dict.get j d' =
            if bool_decide (j = "created_at")
            then stringified <$> Dict.get j d else Dict.get j d).
  { intros j. subst d'. on_key j "created_at".
    - destruct (Dict.get "created_at" d) eqn:E; simpl; [|done].
      by rewrite get_set_eq.
    - destruct (Dict.get "created_at" d); [|done].
      by rewrite get_set_ne. }
  subst d''. destruct (decide (k = "updated_at")) as [->|Hu].
  - rewrite bool_decide_eq_true_2 by auto.
    rewrite (Hd' "updated_at"). simpl.
    destruct (Dict.get "updated_at" d) eqn:E; simpl.
    + by rewrite get_set_eq.
    + rewrite Hd'. by rewrite E.
  - transitivity (Dict.get k d').
    + destruct (Dict.get "updated_at" d'); [|done]. by rewrite get_set_ne.
    + rewrite Hd'. destruct (decide (k = "created_at")) as [->|Hc].
      * by rewrite !bool_decide_eq_true_2 by auto.
      * by rewrite !bool_decide_eq_false_2 by (try intros [|]; done).
Qed.

(** Every field of a shaped record, whatever the record. *)
Lemma shaped_get doc k :
  Dict.get k (product_to_public doc) =
  if bool_decide (k = "_id") then None
  else if bool_decide (k = "id") then
    match Dict.get "_id" doc with
    | Some oid => Some (stringified oid)
    | None => Dict.get "id" doc
    end
  else if bool_decide (k = "created_at" ∨ k = "updated_at")
  then stringified <$> Dict.get k doc
  else Dict.get k doc.
Proof.
  unfold product_to_public. rewrite shaped_timestamps.
  on_key k "_id".
  { rewrite bool_decide_eq_false_2 by (intros [|]; discriminate).
    destruct (Dict.get "_id" doc) eqn:Hid; [|done].
    rewrite get_set_ne by done. apply get_remove_eq. }
  on_key k "id".
  { rewrite bool_decide_eq_false_2 by (intros [|]; discriminate).
    destruct (Dict.get "_id" doc) eqn:Hid; [|done]. apply get_set_eq. }
  destruct (Dict.get "_id" doc) eqn:Hid; [|done].
  rewrite !get_set_ne by done. by rewrite !get_remove_ne by done.
Qed.

Lemma shaped_public doc : stored doc → public (product_to_public doc).
Proof.
  intros [oid Hoid]. split.
  - by rewrite shaped_get.
  - exists (py_str oid). rewrite shaped_get. simpl. by rewrite Hoid.
Qed.

End ShapingFacts.

(** ** Filters *)

Section QueryFacts.
Context `{Runtime}.

Lemma value_eqb_text e s : value_eqb e (VStr s) = is_text s e.
Proof. by destruct e. Qed.

Lemma eq_match_text s k doc :
  eq_match (VStr s) (Dict.get k doc) = field_equals k s doc.
Proof.
  unfold eq_match, field_equals.
  destruct (Dict.get k doc) as [[]|]; try done. simpl.
  induction l as [|e l IH]; simpl; [done|].
  by rewrite value_eqb_text, IH.
Qed.

Lemma matches_nil doc : matches [] doc = true.
Proof. done. Qed.

Lemma matches_cons k c rest doc :
  matches ((k, c) :: rest) doc = clause k c doc && matches rest doc.
Proof.
  unfold matches, clause. simpl. by f_equal.
Qed.

(** A filter with the single entry [k: c], [k] not an operator. *)
Lemma matches_field k c doc :
  String.eqb k "$or" = false →
  matches [(k, c)] doc = field_cond c (Dict.get k doc).
Proof.
  intros Hk. rewrite matches_cons, matches_nil. unfold clause.
  rewrite Hk. apply andb_true_r.
Qed.

Lemma regex_cond p k doc :
  field_cond (VDict [("$regex", VStr p); ("$options", VStr "i")]) (Dict.get k doc)
  = field_searched k p doc.
Proof. done. Qed.

Lemma elem_regex_cond p k doc :
  field_cond (VDict [("$elemMatch",
    VDict [("$regex", VStr p); ("$options", VStr "i")])]) (Dict.get k doc)
  = element_searched k p doc.
Proof. done. Qed.

(** The filter of the featured query. *)
Lemma matches_featured doc :
  matches [("tags", VStr "featured")] doc = field_equals "tags" "featured" doc.
Proof. rewrite matches_field by done. apply eq_match_text. Qed.

(** The free-text entry of the list filter. *)
Lemma or_clause p doc :
  clause "$or" (VList [
    VDict [("title", VDict [("$regex", VStr p); ("$options", VStr "i")])];
    VDict [("description", VDict [("$regex", VStr p); ("$options", VStr "i")])];
    VDict [("tags", VDict [("$elemMatch",
              VDict [("$regex", VStr p); ("$options", VStr "i")])])]
  ]) doc
  = field_searched "title" p doc || field_searched "description" p doc
    || element_searched "tags" p doc.
Proof.
  unfold clause. simpl.
  rewrite !andb_true_r, orb_false_r, orb_assoc. reflexivity.
Qed.

End QueryFacts.

(** ** The filter of the product list *)

(** The filter, entry by entry. *)
Lemma filters_entries category q :
  list_products_filters category q =
  match given category with Some c => [("category", VStr c)] | None => [] end
  ++ match given q with Some p => [("$or", alternatives p)] | None => [] end.
Proof.
  unfold list_products_filters, given.
  destruct category as [c|], q as [p|];
    try destruct (truthy c); try destruct (truthy p); reflexivity.
Qed.

Lemma truthy_spec s : truthy s = true ↔ s ≠ "".
Proof.
  unfold truthy. rewrite negb_true_iff, <- not_true_iff_false, String.eqb_eq. done.
Qed.



Lemma field_equals_texts k s doc ts :
  Dict.get k doc = Some (VList (map VStr ts)) → field_equals k s doc = true ↔ s ∈ ts.
Proof.
  intros Hk. unfold field_equals. rewrite Hk. clear Hk.
  induction ts as [|t ts IH]; simpl.
  - split; [done|]. by intros ?%elem_of_nil.
  - rewrite orb_true_iff, IH, String.eqb_eq, elem_of_cons.
    split; intros [->|?]; auto.
Qed.

Section ListFilter.
Context `{Runtime}.

Lemma searched_texts p ts :
  existsb (found_in p) (map VStr ts) = true
  ↔ ∃ t, t ∈ ts ∧ regex_search p "i" t = true.
Proof.
  induction ts as [|t ts IH]; simpl.
  - split; [done|]. intros (t & Ht%elem_of_nil & _). done.
  - rewrite orb_true_iff, IH. split.
    + intros [Ht|(u & Hu & Hs)].
      * exists t. split; [left|done].
      * exists u. split; [by right|done].
    + intros (u & [->|Hu]%elem_of_cons & Hs); [by left|].
      right. by exists u.
Qed.

(** The filter of the product list as a condition on the document. *)
Lemma list_filter_conditions (category q : option string) (doc : dict) :
  matches (list_products_filters category q) doc =
  match given category with
  | Some c => field_equals "category" c doc
  | None => true
  end
  &&
  match given q with
  | Some p => field_searched "title" p doc
              || field_searched "description" p doc
              || element_searched "tags" p doc
  | None => true
  end.
Proof.
  rewrite filters_entries.
  destruct (given category) as [c|], (given q) as [p|]; simpl app;
    rewrite ?matches_cons, ?matches_nil, ?andb_true_r;
    rewrite ?(or_clause p); try reflexivity.
  - f_equal. apply eq_match_text.
  - apply eq_match_text.
Qed.





End ListFilter.










(** C10.  An empty [category] (or [q]) yields the very filter of an absent
    one; in general the filter depends on the parameters through [given]
    only, and each entry is there exactly when its parameter is present and
    not empty. *)
Theorem empty_parameter_as_absent :
  (∀ q, list_products_filters (Some "") q = list_products_filters None q)
  ∧ (∀ category, list_products_filters category (Some "")
                 = list_products_filters category None)
  ∧ (∀ category q, list_products_filters category q
                   = list_products_filters (given category) (given q))
  ∧ (∀ category q, Dict.get "category" (list_products_filters category q)
                   = VStr <$> given category)
  ∧ (∀ category q, Dict.has "$or" (list_products_filters category q)
                   = bool_decide (is_Some (given q))).
Proof.
  split; [|split; [|split; [|split]]].
  - intros q. reflexivity.
  - intros category. reflexivity.
  - intros category q. rewrite !filters_entries.
    assert (Hidem : ∀ o, given (given o) = given o).
    { intros [s|]; [|done]. unfold given. by destruct (truthy s) eqn:E; rewrite ?E. }
    by rewrite !Hidem.
  - intros category q. rewrite filters_entries.
    by destruct (given category), (given q).
  - intros category q. rewrite filters_entries.
    destruct (given category), (given q); cbn;
      rewrite ?bool_decide_eq_true_2 by eauto;
      rewrite ?bool_decide_eq_false_2 by (by intros [? ?]); reflexivity.
Qed.

(** ** Sorting *)

Section SortFacts.
Variable le : dict → dict → bool.

Lemma insert_by_perm x l : insert_by le x l ≡ₚ x :: l.
Proof.
  induction l as [|y l IH]; simpl; [done|].
  destruct (le x y); [done|]. rewrite IH. apply Permutation_swap.
Qed.

Lemma sort_by_perm l : sort_by le l ≡ₚ l.
Proof.
  induction l as [|x l IH]; simpl; [done|].
  fold (sort_by le l). by rewrite insert_by_perm, IH.
Qed.

Lemma sort_by_length l : length (sort_by le l) = length l.
Proof. by rewrite sort_by_perm. Qed.

Lemma sort_by_Forall (P : dict → Prop) l : Forall P l → Forall P (sort_by le l).
Proof. by rewrite sort_by_perm. Qed.

Lemma sort_by_single x : sort_by le [x] = [x].
Proof. done. Qed.

(** The order is total: of two documents one may come before the other. *)
Hypothesis le_total : ∀ a b, le a b = true ∨ le b a = true.

Lemma insert_by_sorted x l :
  Sorted (λ a b, le a b = true) l → Sorted (λ a b, le a b = true) (insert_by le x l).
Proof.
  induction 1 as [|y l Hl IH Hy]; simpl.
  - by repeat constructor.
  - destruct (le x y) eqn:E.
    + by repeat constructor.
    + constructor; [done|].
      destruct (le_total x y) as [Hxy|Hyx]; [congruence|].
      destruct Hy as [|z l' Hz]; simpl.
      * by constructor.
      * destruct (le x z); by constructor.
Qed.

Lemma sort_by_sorted l : Sorted (λ a b, le a b = true) (sort_by le l).
Proof.
  induction l as [|x l IH]; simpl; [constructor|].
  by apply insert_by_sorted.
Qed.

End SortFacts.

Lemma Sorted_take {A} (R : relation A) (n : nat) (l : list A) :
  Sorted R l → Sorted R (take n l).
Proof.
  intros Hs. revert n.
  induction Hs as [|x l Hl IH Hx]; intros [|n]; simpl; try constructor.
  - apply IH.
  - destruct Hx as [|y l' Hy], n; simpl; by constructor.
Qed.

Section NewestFirst.
Context `{Runtime}.

(** The store's order on sort keys is total. *)
Hypothesis sort_leb_total : ∀ a b, sort_leb a b = true ∨ sort_leb b a = true.

(** Sorting on a field in direction -1 puts greater keys first. *)
Lemma sort_descending field l :
  Sorted (λ a b, sort_leb (Dict.get field b) (Dict.get field a) = true)
    (sort_by (before field (-1)) l).
Proof.
  apply (sort_by_sorted (before field (-1))).
  intros a b. unfold before. simpl. apply sort_leb_total.
Qed.

End NewestFirst.

(** The order of the sample runtime is total, and with it the newest
    documents come first. *)
Lemma date_leb_total a b :
  Sample.date_leb a b = true ∨ Sample.date_leb b a = true.
Proof.
  destruct a as [[]|], b as [[]|]; simpl; auto.
  destruct (Z.leb_spec t t0); [by left|right]. apply Z.leb_le. lia.
Qed.

Lemma sample_newest_first l :
  Sorted (λ a b, Sample.date_leb (Dict.get "created_at" b) (Dict.get "created_at" a) = true)
    (sort_by (before (H := Sample.runtime) "created_at" (-1)) l).
Proof. apply (sort_descending (H := Sample.runtime)), date_leb_total. Qed.

(** ** What the store answers *)

Section RunFacts.
Context `{Runtime}.

Lemma filter_all {A} (f : A → bool) (l : list A) :
  (∀ x, f x = true) → List.filter f l = l.
Proof.
  intros Hf. induction l as [|x l IH]; simpl; [done|]. by rewrite Hf, IH.
Qed.

Lemma Forall_filter_bool {A} (P : A → Prop) (f : A → bool) (l : list A) :
  Forall P l → Forall P (List.filter f l).
Proof.
  induction 1 as [|x l Hx Hl IH]; simpl; [done|].
  destruct (f x); [by constructor|done].
Qed.

(** A plain query with a positive limit: the first [n] matching documents
    in natural order. *)
Lemma run_find_limit d coll filter n :
  0 < n →
  run d (Mongo.limit n (Mongo.find coll filter))
  = take (Z.to_nat n) (List.filter (matches filter) (collection d coll)).
Proof.
  intros Hn. unfold run. simpl.
  destruct (n =? 0) eqn:E; [lia|].
  by rewrite Zabs2Nat.abs_nat_nonneg by lia.
Qed.

(** An ordered query over a whole collection with a positive limit: the
    first [n] documents of the sorted collection. *)
Lemma run_sorted_limit d coll field direction n :
  0 < n →
  run d (Mongo.limit n (Mongo.sort field direction (Mongo.find coll [])))
  = take (Z.to_nat n) (sort_by (before field direction) (collection d coll)).
Proof.
  intros Hn. unfold run. simpl.
  rewrite filter_all by apply matches_nil.
  destruct (n =? 0) eqn:E; [lia|].
  by rewrite Zabs2Nat.abs_nat_nonneg by lia.
Qed.

(** Whatever the cursor, the answer is made of documents of the
    collection. *)
Lemma run_Forall (P : dict → Prop) d c :
  Forall P (collection d (c_coll c)) → Forall P (run d c).
Proof.
  intros HP. unfold run.
  assert (Hm : Forall P (List.filter (matches (c_filter c)) (collection d (c_coll c))))
    by by apply Forall_filter_bool.
  assert (Ho : Forall P
    match c_order c with
    | Some (field, direction) =>
        sort_by (before field direction)
          (List.filter (matches (c_filter c)) (collection d (c_coll c)))
    | None => List.filter (matches (c_filter c)) (collection d (c_coll c))
    end).
  { destruct (c_order c) as [[field direction]|]; [|done].
    by apply sort_by_Forall. }
  destruct (c_limit c =? 0); [done|]. by apply Forall_take.
Qed.

End RunFacts.

(** ** The endpoints *)

Lemma Query_within default lo hi v :
  lo ≤ v ≤ hi → Query default lo hi (Some v) = Some v.
Proof.
  intros [Hlo Hhi]. unfold Query.
  apply Z.leb_le in Hlo, Hhi. by rewrite Hlo, Hhi.
Qed.

Lemma Query_outside default lo hi v :
  ¬ lo ≤ v ≤ hi → Query default lo hi (Some v) = None.
Proof.
  intros Hout. unfold Query.
  destruct (lo <=? v) eqn:Elo, (v <=? hi) eqn:Ehi; try done.
  apply Z.leb_le in Elo, Ehi. lia.
Qed.

Lemma Query_accepted default lo hi lim :
  lo ≤ default ≤ hi → accepted lo hi lim →
  ∃ v, Query default lo hi lim = Some v ∧ lo ≤ v ≤ hi.
Proof.
  intros Hd Hl. destruct lim as [v|]; simpl in Hl.
  - exists v. by rewrite Query_within.
  - by exists default.
Qed.

Section EndpointFacts.
Context `{Runtime}.

Lemma list_products_refused category q lim w :
  ¬ 1 ≤ lim ≤ 50 → list_products category q (Some lim) w = (Unprocessable, w).
Proof. intros Hout. unfold list_products. by rewrite Query_outside. Qed.

Lemma featured_products_refused lim w :
  ¬ 1 ≤ lim ≤ 12 → featured_products (Some lim) w = (Unprocessable, w).
Proof. intros Hout. unfold featured_products. by rewrite Query_outside. Qed.

Lemma list_products_offline category q lim w :
  db w = None → accepted 1 50 lim →
  list_products category q lim w = (Json 200 [], w).
Proof.
  intros Hdb Hl. unfold list_products.
  destruct (Query_accepted 12 1 50 lim) as (v & -> & _); [lia|done|].
  unfold respond, list_products_body, bind, db_is_none. by rewrite Hdb.
Qed.

Lemma featured_products_offline lim w :
  db w = None → accepted 1 12 lim →
  featured_products lim w = (Json 200 [], w).
Proof.
  intros Hdb Hl. unfold featured_products.
  destruct (Query_accepted 8 1 12 lim) as (v & -> & _); [lia|done|].
  unfold respond, featured_products_body, bind, db_is_none. by rewrite Hdb.
Qed.

(** The filter of the product list is accepted when its text is an
    accepted pattern. *)
Lemma valid_list_filter category q :
  valid_filter (list_products_filters category q)
  = match given q with Some p => regex_valid p | None => true end.
Proof.
  rewrite filters_entries.
  destruct (given category) as [c|], (given q) as [p|]; try reflexivity;
    unfold valid_filter; simpl; by destruct (regex_valid p).
Qed.

(** The product list with a store that raises on the filter: the query was
    sent, the request ends with status 500. *)
Lemma list_products_failing category q lim d sent :
  1 ≤ lim ≤ 50 →
  valid_filter (list_products_filters category q) = false →
  list_products category q (Some lim) (World (Some d) sent)
  = (HttpError 500 "Internal Server Error",
     World (Some d)
       (sent ++ [Find (Cursor "product" (list_products_filters category q) None lim)])).
Proof.
  intros Hl Hv. unfold list_products. rewrite Query_within by done.
  unfold respond, list_products_body, get_documents, bind, db_is_none, to_list, ret.
  cbn [db log c_filter Mongo.limit Mongo.find]. by rewrite Hv.
Qed.

(** The product list with a store: one query, its answer shaped. *)
Lemma list_products_online category q lim d sent :
  1 ≤ lim ≤ 50 →
  valid_filter (list_products_filters category q) = true →
  list_products category q (Some lim) (World (Some d) sent)
  = (Json 200 (map product_to_public
       (take (Z.to_nat lim)
          (List.filter (matches (list_products_filters category q))
             (collection d "product")))),
     World (Some d)
       (sent ++ [Find (Cursor "product" (list_products_filters category q) None lim)])).
Proof.
  intros Hl Hv. unfold list_products. rewrite Query_within by done.
  unfold respond, list_products_body, get_documents, bind, db_is_none, to_list, ret.
  cbn [db log c_filter Mongo.limit Mongo.find]. rewrite Hv.
  by rewrite run_find_limit by lia.
Qed.

(** A query the store accepts is answered and logged. *)
Lemma to_list_valid c d sent :
  valid_filter (c_filter c) = true →
  to_list c (World (Some d) sent)
  = (Returned (run d c), World (Some d) (sent ++ [Find c])).
Proof. intros Hv. unfold to_list. cbn [db log]. by rewrite Hv. Qed.

(** The two queries of the featured endpoint and what it makes of their
    answers. *)
Lemma featured_products_online lim d sent :
  1 ≤ lim ≤ 12 →
  let products := collection d "product" in
  let phase1 :=
    take (Z.to_nat lim) (List.filter (field_equals "tags" "featured") products) in
  let n := Z.of_nat (length phase1) in
  let phase2 :=
    if n <? lim
    then take (Z.to_nat (lim - n)) (sort_by (before "created_at" (-1)) products)
    else [] in
  let queries :=
    Find (Cursor "product" [("tags", VStr "featured")] None lim)
    :: (if n <? lim
        then [Find (Cursor "product" [] (Some ("created_at", -1)) (lim - n))]
        else []) in
  featured_products (Some lim) (World (Some d) sent)
  = (Json 200 (map product_to_public (take (Z.to_nat lim) (phase1 ++ phase2))),
     World (Some d) (sent ++ queries)).
Proof.
  intros Hl products phase1 n phase2 queries.
  unfold featured_products. rewrite Query_within by done.
  unfold respond, featured_products_body, bind, db_is_none, ret.
  cbn [db]. rewrite to_list_valid by reflexivity.
  rewrite run_find_limit by lia.
  rewrite (filter_ext _ _ matches_featured).
  fold products. fold phase1. fold n.
  subst phase2 queries. unfold slice_to.
  destruct (0 <=? lim) eqn:E0; [|lia].
  destruct (n <? lim) eqn:En.
  - apply Z.ltb_lt in En. rewrite to_list_valid by reflexivity.
    rewrite run_sorted_limit by lia. by rewrite <- app_assoc.
  - by rewrite app_nil_r.
Qed.

(** The truncation at the end of [featured_products] cuts nothing. *)
Lemma featured_within_limit (lim : Z) (phase1 recent : list dict) :
  0 ≤ lim →
  (length phase1 ≤ Z.to_nat lim)%nat →
  let n := Z.of_nat (length phase1) in
  let phase2 := if n <? lim then take (Z.to_nat (lim - n)) recent else [] in
  take (Z.to_nat lim) (phase1 ++ phase2) = phase1 ++ phase2.
Proof.
  intros Hl Hlen n phase2. apply take_ge. rewrite length_app.
  subst phase2. destruct (n <? lim) eqn:En; simpl; [|lia].
  rewrite length_take. lia.
Qed.

End EndpointFacts.

(** A text the engine refuses as a pattern: the query is sent, the store
    raises, and the request ends with status 500. *)
Lemma list_products_bad_pattern :
  fst (list_products (H := Sample.runtime) None (Some "*") None
         (Sample.store [Sample.product 2 "Carta" "carte" [] 7]))
  = HttpError 500 "Internal Server Error".
Proof. reflexivity. Qed.

(** ** The claims on the endpoints *)

Section Featured.
Context `{Runtime}.

(** C1.  With a store and a limit within 1..12, the featured endpoint
    first sends the query for at most [lim] products tagged [featured];
    when that answers [n < lim] documents it sends a second query, over
    the whole collection, newest first, limited to [lim - n]; it answers
    the shaped documents of the first query followed by those of the
    second, cut to [lim], and the cut removes nothing.  Where the store's
    order on sort keys is total, the documents of the second query come
    with their [created_at] in descending order. *)
Theorem featured_two_phases (lim : Z) (d : database) (sent : list event) :
  1 ≤ lim ≤ 12 →
  let products := collection d "product" in
  let phase1 :=
    take (Z.to_nat lim) (List.filter (field_equals "tags" "featured") products) in
  let n := Z.of_nat (length phase1) in
  let phase2 :=
    if n <? lim
    then take (Z.to_nat (lim - n)) (sort_by (before "created_at" (-1)) products)
    else [] in
  let queries :=
    Find (Cursor "product" [("tags", VStr "featured")] None lim)
    :: (if n <? lim
        then [Find (Cursor "product" [] (Some ("created_at", -1)) (lim - n))]
        else []) in
  featured_products (Some lim) (World (Some d) sent)
  = (Json 200 (map product_to_public (take (Z.to_nat lim) (phase1 ++ phase2))),
     World (Some d) (sent ++ queries))
  ∧ take (Z.to_nat lim) (phase1 ++ phase2) = phase1 ++ phase2
  ∧ ((∀ a b, sort_leb a b = true ∨ sort_leb b a = true) →
     Sorted (λ a b, sort_leb (Dict.get "created_at" b) (Dict.get "created_at" a) = true)
       phase2).
Proof.
  intros Hl products phase1 n phase2 queries. split; [|split].
  - by apply featured_products_online.
  - apply featured_within_limit; [lia|].
    subst phase1. rewrite length_take. lia.
  - intros Htotal. subst phase2. destruct (n <? lim); [|constructor].
    by apply Sorted_take, sort_descending.
Qed.

(** C8.  There is a store with fewer featured products than the limit,
    holding each of its products once, for which the featured endpoint
    lists the same product twice: the second query runs over the whole
    collection and nothing removes what the first one returned. *)
Theorem featured_lists_twice :
  ∃ (d : database) (lim : Z) (p : dict),
    1 ≤ lim ≤ 12
    ∧ NoDup (collection d "product")
    ∧ Z.of_nat (length (List.filter (field_equals "tags" "featured")
                          (collection d "product"))) < lim
    ∧ fst (featured_products (Some lim) (World (Some d) []))
      = Json 200 [product_to_public p; product_to_public p].
Proof.
  exists (Database {["product" := [Sample.product 1 "Dado" "gadget" ["featured"] 5]]} 2 10).
  exists 8, (Sample.product 1 "Dado" "gadget" ["featured"] 5).
  split; [lia|]. split; [|split].
  - change (NoDup [Sample.product 1 "Dado" "gadget" ["featured"] 5]).
    apply NoDup_singleton.
  - vm_compute. done.
  - rewrite featured_products_online by lia. reflexivity.
Qed.

End Featured.

(** C1 at work: one featured product and three others, limit 3; the
    featured one comes first, then the two newest of the whole collection,
    the newer of them first. *)
Lemma featured_two_phases_witness :
  1 ≤ 3 ≤ 12
  ∧ fst (featured_products (H := Sample.runtime) (Some 3)
      (Sample.store [Sample.product 1 "Dado" "gadget" ["featured"] 5;
                     Sample.product 2 "Carta" "carte" [] 7;
                     Sample.product 3 "Gioco" "videogiochi" [] 9;
                     Sample.product 4 "Puzzle" "gadget" [] 8]))
    = Json 200
        (map (product_to_public (H := Sample.runtime))
           [Sample.product 1 "Dado" "gadget" ["featured"] 5;
            Sample.product 3 "Gioco" "videogiochi" [] 9;
            Sample.product 4 "Puzzle" "gadget" [] 8])
  ∧ Sorted (λ a b, Sample.date_leb (Dict.get "created_at" b) (Dict.get "created_at" a) = true)
      [Sample.product 3 "Gioco" "videogiochi" [] 9;
       Sample.product 4 "Puzzle" "gadget" [] 8].
Proof.
  split; [lia|].
  pose proof (featured_two_phases (H := Sample.runtime) 3
    (Database {["product" := [Sample.product 1 "Dado" "gadget" ["featured"] 5;
                              Sample.product 2 "Carta" "carte" [] 7;
                              Sample.product 3 "Gioco" "videogiochi" [] 9;
                              Sample.product 4 "Puzzle" "gadget" [] 8]]} 100 1000)
    [] ltac:(lia)) as (Hreply & _ & Hsorted).
  split.
  - unfold Sample.store. rewrite Hreply. reflexivity.
  - exact (Hsorted date_leb_total).
Defined.

Section Limits.
Context `{Runtime}.

(** C5.  A [limit] outside 1..50 given to the product list is refused as
    a validation failure: the answer is the 422 of the framework, no
    product list, and the world is as before, so nothing was sent to the
    store. *)
Theorem list_limit_rejected (category q : option string) (lim : Z) (w : world) :
  lim < 1 ∨ 50 < lim →
  list_products category q (Some lim) w = (Unprocessable, w)
  ∧ status (fst (list_products category q (Some lim) w)) = 422
  ∧ log (snd (list_products category q (Some lim) w)) = log w
  ∧ fst (list_products category q (Some lim) w)
    ≠ fst (list_products category q (Some (clamp 1 50 lim)) w).
Proof.
  intros Hout. rewrite list_products_refused by lia.
  split; [done|]. split; [done|]. split; [done|].
  assert (Hc : 1 ≤ clamp 1 50 lim ≤ 50) by (unfold clamp; lia).
  destruct w as [[d|] sent].
  - destruct (valid_filter (list_products_filters category q)) eqn:Hv.
    + by rewrite list_products_online.
    + by rewrite list_products_failing.
  - by rewrite list_products_offline.
Qed.

(** C4, as amended.  An absent [limit] stands for 12 on the product list
    and for 8 on the featured endpoint; a [limit] within the bounds is the
    limit of the query as it is; a [limit] outside 1..50 (respectively
    1..12) is not brought into the range: the request is refused. *)
Theorem limit_default_and_bounds :
  (∀ category q w,
     list_products category q None w = list_products category q (Some 12) w)
  ∧ (∀ w, featured_products None w = featured_products (Some 8) w)
  ∧ (∀ category q lim d sent, 1 ≤ lim ≤ 50 →
       log (snd (list_products category q (Some lim) (World (Some d) sent)))
       = sent ++ [Find (Cursor "product" (list_products_filters category q) None lim)])
  ∧ (∀ category q lim w, ¬ 1 ≤ lim ≤ 50 →
       list_products category q (Some lim) w = (Unprocessable, w))
  ∧ (∀ lim w, ¬ 1 ≤ lim ≤ 12 →
       featured_products (Some lim) w = (Unprocessable, w)).
Proof.
  split; [|split; [|split; [|split]]].
  - reflexivity.
  - reflexivity.
  - intros category q lim d sent Hl.
    destruct (valid_filter (list_products_filters category q)) eqn:Hv.
    + by rewrite list_products_online.
    + by rewrite list_products_failing.
  - intros. by apply list_products_refused.
  - intros. by apply featured_products_refused.
Qed.

(** C6, as amended.  When no store is connected, the product list and
    the featured endpoint answer the empty list with status 200 and leave
    the world alone, for every request whose [limit] is absent or within
    the bounds. *)
Theorem reads_degrade_offline (w : world) :
  db w = None →
  (∀ category q lim, accepted 1 50 lim →
     list_products category q lim w = (Json 200 [], w))
  ∧ (∀ lim, accepted 1 12 lim →
       featured_products lim w = (Json 200 [], w)).
Proof.
  intros Hdb. split.
  - intros. by apply list_products_offline.
  - intros. by apply featured_products_offline.
Qed.

End Limits.

(** C5 at work: limit 0 on a store with one card. *)
Lemma list_limit_rejected_witness :
  (0 < 1 ∨ 50 < 0)
  ∧ list_products (H := Sample.runtime) (Some "carte") None (Some 0)
      (Sample.store [Sample.product 2 "Carta" "carte" [] 7])
    = (Unprocessable, Sample.store [Sample.product 2 "Carta" "carte" [] 7]).
Proof.
  split; [lia|].
  apply (list_limit_rejected (H := Sample.runtime) (Some "carte") None 0
           (Sample.store [Sample.product 2 "Carta" "carte" [] 7])).
  lia.
Defined.

(** C4 as stated fails: limit 0 on the product list and limit 13 on the
    featured endpoint are refused, while the limits clamped into the range
    (1 and 12) are served. *)
Lemma limit_not_clamped :
  clamp 1 50 0 = 1 ∧ clamp 1 12 13 = 12
  ∧ fst (list_products (H := Sample.runtime) None None (Some 0)
           (Sample.store [Sample.product 2 "Carta" "carte" [] 7]))
    = Unprocessable
  ∧ fst (list_products (H := Sample.runtime) None None (Some (clamp 1 50 0))
           (Sample.store [Sample.product 2 "Carta" "carte" [] 7]))
    = Json 200 [product_to_public (H := Sample.runtime)
                  (Sample.product 2 "Carta" "carte" [] 7)]
  ∧ fst (featured_products (H := Sample.runtime) (Some 13)
           (Sample.store [Sample.product 2 "Carta" "carte" [] 7]))
    = Unprocessable
  ∧ fst (featured_products (H := Sample.runtime) (Some (clamp 1 12 13))
           (Sample.store [Sample.product 2 "Carta" "carte" [] 7]))
    = Json 200 [product_to_public (H := Sample.runtime)
                  (Sample.product 2 "Carta" "carte" [] 7)].
Proof. repeat split. Qed.

(** C4, as amended, at work: limit 51 on the product list. *)
Lemma limit_default_and_bounds_witness :
  ¬ 1 ≤ 51 ≤ 50
  ∧ list_products (H := Sample.runtime) None None (Some 51) Sample.offline
    = (Unprocessable, Sample.offline).
Proof.
  split; [lia|].
  apply (proj1 (proj2 (proj2 (proj2 (limit_default_and_bounds (H := Sample.runtime))))));
  lia.
Defined.

(** C6 as stated fails: without a store, a product list request with
    limit 0 is answered by the 422 of the framework, not by the empty
    list. *)
Lemma offline_invalid_limit :
  db Sample.offline = None
  ∧ fst (list_products (H := Sample.runtime) None None (Some 0) Sample.offline)
    = Unprocessable
  ∧ fst (list_products (H := Sample.runtime) None None (Some 0) Sample.offline)
    ≠ Json 200 [].
Proof. repeat split. discriminate. Qed.

(** C6, as amended, at work: no store, limit 50 on the product list and no
    limit on the featured endpoint. *)
Lemma reads_degrade_offline_witness :
  db Sample.offline = None ∧ accepted 1 50 (Some 50) ∧ accepted 1 12 None
  ∧ list_products (H := Sample.runtime) (Some "carte") (Some "x") (Some 50) Sample.offline
    = (Json 200 [], Sample.offline)
  ∧ featured_products (H := Sample.runtime) None Sample.offline
    = (Json 200 [], Sample.offline).
Proof.
  split; [reflexivity|]. split; [simpl; lia|]. split; [exact I|].
  split.
  - apply (proj1 (reads_degrade_offline (H := Sample.runtime) Sample.offline eq_refl)).
    simpl. lia.
  - apply (proj2 (reads_degrade_offline (H := Sample.runtime) Sample.offline eq_refl)).
    exact I.
Defined.

Section Shaped.
Context `{Runtime}.

Lemma shaped_all (docs : list dict) :
  Forall stored docs → Forall public (map product_to_public docs).
Proof.
  intros Hs. apply Forall_map. eapply Forall_impl; [exact Hs|].
  intros doc. apply shaped_public.
Qed.

Lemma list_products_public category q lim w st body w' :
  (∀ d, db w = Some d → Forall stored (collection d "product")) →
  list_products category q lim w = (Json st body, w') →
  Forall public body.
Proof.
  intros Hw.
  assert (Hin : ∀ v, 1 ≤ v ≤ 50 →
            list_products category q (Some v) w = (Json st body, w') →
            Forall public body).
  { intros v Hv. destruct w as [[d|] sent].
    - destruct (valid_filter (list_products_filters category q)) eqn:Hok.
      + rewrite list_products_online by done. intros [= <- <- <-].
        apply shaped_all, Forall_take, Forall_filter_bool. by apply Hw.
      + by rewrite list_products_failing.
    - rewrite list_products_offline by done. by intros [= <- <- <-]. }
  destruct lim as [v|].
  - destruct (decide (1 ≤ v ≤ 50)) as [Hv|Hv]; [by apply Hin|].
    by rewrite list_products_refused.
  - apply (Hin 12). lia.
Qed.

Lemma featured_products_public lim w st body w' :
  (∀ d, db w = Some d → Forall stored (collection d "product")) →
  featured_products lim w = (Json st body, w') →
  Forall public body.
Proof.
  intros Hw.
  assert (Hin : ∀ v, 1 ≤ v ≤ 12 →
            featured_products (Some v) w = (Json st body, w') →
            Forall public body).
  { intros v Hv. destruct w as [[d|] sent].
    - rewrite featured_products_online by done. intros [= <- <- <-].
      apply shaped_all, Forall_take, Forall_app. split.
      + apply Forall_take, Forall_filter_bool. by apply Hw.
      + destruct (_ <? _); [|constructor].
        apply Forall_take, sort_by_Forall. by apply Hw.
    - rewrite featured_products_offline by done. by intros [= <- <- <-]. }
  destruct lim as [v|].
  - destruct (decide (1 ≤ v ≤ 12)) as [Hv|Hv]; [by apply Hin|].
    by rewrite featured_products_refused.
  - apply (Hin 8). lia.
Qed.

(** C3.  Shaping a stored record removes the key [_id], puts the string of
    the identifier under [id], replaces [created_at] and [updated_at] by
    their strings when they are present, and leaves every other field as
    it is.  Hence, over a store whose records carry their identifier,
    every product answered by the product list or by the featured endpoint
    has a string under [id] and nothing under [_id]. *)
Theorem shaping_makes_public :
  (∀ doc oid, Dict.get "_id" doc = Some oid →
     Dict.get "_id" (product_to_public doc) = None
     ∧ Dict.get "id" (product_to_public doc) = Some (VStr (py_str oid))
     ∧ (∀ k, k = "created_at" ∨ k = "updated_at" →
          Dict.get k (product_to_public doc)
          = (λ t, VStr (py_str t)) <$> Dict.get k doc)
     ∧ (∀ k, k ∉ ["_id"; "id"; "created_at"; "updated_at"] →
          Dict.get k (product_to_public doc) = Dict.get k doc))
  ∧ (∀ w, (∀ d, db w = Some d → Forall stored (collection d "product")) →
       (∀ category q lim st body w',
          list_products category q lim w = (Json st body, w') →
          Forall public body)
       ∧ (∀ lim st body w',
            featured_products lim w = (Json st body, w') →
            Forall public body)).
Proof.
  split.
  - intros doc oid Hoid. split; [|split; [|split]].
    + by rewrite shaped_get.
    + rewrite shaped_get. simpl. by rewrite Hoid.
    + intros k Hk. rewrite shaped_get.
      rewrite (bool_decide_eq_false_2 (k = "_id")) by (intros ->; by destruct Hk).
      rewrite (bool_decide_eq_false_2 (k = "id")) by (intros ->; by destruct Hk).
      by rewrite bool_decide_eq_true_2.
    + intros k Hk. rewrite shaped_get.
      rewrite !not_elem_of_cons in Hk. destruct Hk as (? & ? & ? & ? & _).
      rewrite (bool_decide_eq_false_2 (k = "_id")) by done.
      rewrite (bool_decide_eq_false_2 (k = "id")) by done.
      by rewrite bool_decide_eq_false_2 by (intros [|]; done).
  - intros w Hw. split.
    + intros. by eapply list_products_public.
    + intros. by eapply featured_products_public.
Qed.

End Shaped.

(** C3 at work on a stored product with identifier 3. *)
Lemma shaping_makes_public_witness :
  Dict.get "_id" (Sample.product 3 "Gioco" "videogiochi" ["featured"] 9) = Some (VOid 3)
  ∧ Dict.get "_id" (product_to_public (H := Sample.runtime)
                      (Sample.product 3 "Gioco" "videogiochi" ["featured"] 9)) = None
  ∧ Dict.get "id" (product_to_public (H := Sample.runtime)
                     (Sample.product 3 "Gioco" "videogiochi" ["featured"] 9))
    = Some (VStr "3").
Proof.
  split; [reflexivity|].
  destruct (proj1 (shaping_makes_public (H := Sample.runtime))
              (Sample.product 3 "Gioco" "videogiochi" ["featured"] 9) (VOid 3) eq_refl)
    as (Hno & Hid & _).
  split; [exact Hno | exact Hid].
Defined.

Section Create.
Context `{Runtime}.

(** A body the framework refuses never reaches the handler. *)
Lemma create_product_refused (body : value) (w : world) :
  ProductCreate body = None → create_product body w = (Unprocessable, w).
Proof. intros Hb. unfold create_product. by rewrite Hb. Qed.

(** C7, as amended.  For a request whose body passes the check against
    [ProductCreate]: without a store, [POST /api/products] fails with status
    500, carries no identifier, and leaves the world as it was; with a
    store, it answers status 201 with a body made of the single field [id],
    the string of the identifier the store assigned; the store's collection
    gains one record at its end, which has the payload's fields, and the
    insertion is the only operation sent. *)
Theorem create_product_outcomes (body : value) (payload : dict) (w : world) :
  ProductCreate body = Some payload →
  match db w with
  | None =>
      create_product body w = (HttpError 500 "Database non disponibile", w)
  | Some d =>
      let rec := stored_record d payload in
      let d' := insert_one "product" rec d in
      create_product body w
      = (Json 201 [("id", VStr (py_str (VOid (next_oid d))))],
         World (Some d') (log w ++ [Insert "product" rec]))
      ∧ collection d' "product" = collection d "product" ++ [rec]
      ∧ Dict.get "_id" rec = Some (VOid (next_oid d))
      ∧ (∀ k, k ≠ "_id" → k ≠ "created_at" → Dict.get k rec = Dict.get k payload)
  end.
Proof.
  intros Hbody. unfold create_product. rewrite Hbody.
  destruct w as [[d|] sent]; simpl db.
  - split; [reflexivity|]. split; [|split].
    + unfold collection, insert_one. simpl collections.
      by rewrite lookup_insert_eq.
    + unfold stored_record. apply get_set_eq.
    + intros k Hid Hc. unfold stored_record.
      rewrite get_set_ne by done. by rewrite get_set_ne.
  - reflexivity.
Qed.

End Create.

(** C7 as stated fails: without a store, a request whose body is no JSON
    object is answered by the 422 of the framework, not by status 500; the
    check of the body comes before the handler and its guard. *)
Lemma create_invalid_body_offline :
  db Sample.offline = None
  ∧ ProductCreate (H := Sample.runtime) (VList []) = None
  ∧ fst (create_product (H := Sample.runtime) (VList []) Sample.offline)
    = Unprocessable
  ∧ status (fst (create_product (H := Sample.runtime) (VList []) Sample.offline))
    ≠ 500.
Proof. repeat split. discriminate. Qed.

(** C7, as amended, at work: a titled product without a store. *)
Lemma create_product_outcomes_witness :
  ProductCreate (H := Sample.runtime) (VDict [("title", VStr "Dado")])
  = Some [("title", VStr "Dado")]
  ∧ create_product (H := Sample.runtime) (VDict [("title", VStr "Dado")]) Sample.offline
    = (HttpError 500 "Database non disponibile", Sample.offline).
Proof.
  split; [reflexivity|].
  apply (create_product_outcomes (H := Sample.runtime)
           (VDict [("title", VStr "Dado")]) [("title", VStr "Dado")]
           Sample.offline).
  reflexivity.
Defined.

(** C7 at work: a payload on an empty store, then without a store, then a
    body without title. *)
Lemma create_product_example :
  fst (create_product (H := Sample.runtime) (VDict [("title", VStr "Dado")])
         (Sample.store []))
  = Json 201 [("id", VStr "100")]
  ∧ (∃ d, db (snd (create_product (H := Sample.runtime)
                     (VDict [("title", VStr "Dado")]) (Sample.store []))) = Some d
          ∧ collection d "product"
            = [[("title", VStr "Dado"); ("created_at", VDate 1000); ("_id", VOid 100)]])
  ∧ create_product (H := Sample.runtime) (VDict [("title", VStr "Dado")]) Sample.offline
    = (HttpError 500 "Database non disponibile", Sample.offline)
  ∧ create_product (H := Sample.runtime) (VDict [("price", VInt 3)]) (Sample.store [])
    = (Unprocessable, Sample.store []).
Proof.
  split; [reflexivity|]. split; [|split; reflexivity].
  eexists. split; reflexivity.
Qed.


(** * Further properties *)

(** ** Shaping, beyond stored records *)

Lemma replace_same k v d : Dict.get k d = Some v → Dict.replace k v d = d.
Proof.
  induction d as [|[k0 v0] d IH]; simpl; [done|].
  destruct (String.eqb k0 k); [by intros [= ->]|].
  intros Hk. by rewrite IH.
Qed.

Lemma set_same k v d : Dict.get k d = Some v → Dict.set k v d = d.
Proof.
  intros Hk. unfold Dict.set, Dict.has. rewrite Hk. by apply replace_same.
Qed.

Section ShapingMore.
Context `{Runtime}.

(** X1.  The shaped record has a string under [id] and nothing under [_id]
    exactly when the input carries [_id] or already has a string under
    [id]: for a record without [_id] no identifier is made up. *)
Theorem shaped_public_iff (doc : dict) :
  public (product_to_public doc)
  ↔ stored doc ∨ ∃ s, Dict.get "id" doc = Some (VStr s).
Proof.
  unfold public, stored. rewrite !shaped_get. simpl.
  destruct (Dict.get "_id" doc) as [oid|] eqn:Hid.
  - split; [intros _; left; by eexists|].
    intros _. split; [done|]. by eexists.
  - split.
    + intros [_ Hs]. by right.
    + intros [[? [=]]|Hs]. by split.
Qed.

(** A record without [_id] whose timestamps are strings already is left as
    it is, where the string of a string is that string. *)
Lemma shaped_fixed (doc : dict) :
  (∀ s, py_str (VStr s) = s) →
  Dict.get "_id" doc = None →
  (∀ v, Dict.get "created_at" doc = Some v → ∃ s, v = VStr s) →
  (∀ v, Dict.get "updated_at" doc = Some v → ∃ s, v = VStr s) →
  product_to_public doc = doc.
Proof.
  intros Hstr Hid Hc Hu. unfold product_to_public. rewrite Hid.
  assert (Hc' : match Dict.get "created_at" doc with
                | Some t => Dict.set "created_at" (VStr (py_str t)) doc
                | None => doc
                end = doc).
  { destruct (Dict.get "created_at" doc) as [t|] eqn:E; [|done].
    destruct (Hc t eq_refl) as [s ->]. rewrite Hstr. by apply set_same. }
  rewrite Hc'.
  destruct (Dict.get "updated_at" doc) as [t|] eqn:E; [|done].
  destruct (Hu t eq_refl) as [s ->]. rewrite Hstr. by apply set_same.
Qed.

(** X2.  Where the string of a string is that string (as for Python's
    [str]), shaping a shaped record changes nothing. *)
Theorem shaping_idempotent (doc : dict) :
  (∀ s, py_str (VStr s) = s) →
  product_to_public (product_to_public doc) = product_to_public doc.
Proof.
  intros Hstr. apply shaped_fixed; [done|..].
  - by rewrite shaped_get.
  - intros v. rewrite shaped_get. simpl.
    destruct (Dict.get "created_at" doc); intros [= <-]. by eexists.
  - intros v. rewrite shaped_get. simpl.
    destruct (Dict.get "updated_at" doc); intros [= <-]. by eexists.
Qed.

End ShapingMore.

(** X2 at work on the sample runtime, whose [str] leaves strings alone. *)
Lemma shaping_idempotent_witness :
  (∀ s, Sample.show (VStr s) = s)
  ∧ product_to_public (H := Sample.runtime)
      (product_to_public (H := Sample.runtime)
         (Sample.product 3 "Gioco" "videogiochi" ["featured"] 9))
    = product_to_public (H := Sample.runtime)
        (Sample.product 3 "Gioco" "videogiochi" ["featured"] 9).
Proof.
  split; [by intros s|].
  apply (shaping_idempotent (H := Sample.runtime)). by intros s.
Defined.

(** ** The filter of the product list, parameter by parameter *)

Section FilterMore.
Context `{Runtime}.

(** X3.  The two parameters narrow the list independently: a document
    passes the filter of [category] and [q] exactly when it passes the
    filter of [category] alone and the filter of [q] alone; without
    parameters every document passes. *)
Theorem list_filter_composes (category q : option string) (doc : dict) :
  matches (list_products_filters category q) doc
  = matches (list_products_filters category None) doc
    && matches (list_products_filters None q) doc
  ∧ matches (list_products_filters None None) doc = true.
Proof.
  split; [|done].
  rewrite !list_filter_conditions. simpl given.
  by rewrite andb_true_r, andb_true_l.
Qed.

End FilterMore.

(** ** The featured endpoint: sizes, repetitions, queries *)

Lemma filter_bool_sublist {A} (f : A → bool) (l : list A) :
  List.filter f l `sublist_of` l.
Proof.
  induction l as [|x l IH]; simpl; [done|].
  destruct (f x); by constructor.
Qed.

Lemma filter_bool_length {A} (f : A → bool) (l : list A) :
  (length (List.filter f l) ≤ length l)%nat.
Proof. apply sublist_length, filter_bool_sublist. Qed.

Lemma filter_bool_Forall {A} (f : A → bool) (l : list A) :
  Forall (λ x, f x = true) (List.filter f l).
Proof.
  induction l as [|x l IH]; simpl; [done|].
  destruct (f x) eqn:E; [by constructor|done].
Qed.

Lemma filter_bool_nil {A} (f : A → bool) (l : list A) :
  Forall (λ x, f x = false) l → List.filter f l = [].
Proof.
  induction 1 as [|x l Hx _ IH]; simpl; [done|]. by rewrite Hx.
Qed.

Section FeaturedMore.
Context `{Runtime}.

(** X4.  With a store and a limit within 1..12, the featured endpoint
    answers exactly min(limit, f + t) products, where f counts the products
    tagged [featured] and t all the products: never more than [limit], as
    many as [limit] once the collection holds that many, none on an empty
    collection. *)
Theorem featured_count (lim : Z) (d : database) (sent : list event) :
  1 ≤ lim ≤ 12 →
  ∃ body,
    fst (featured_products (Some lim) (World (Some d) sent)) = Json 200 body
    ∧ Z.of_nat (length body)
      = Z.min lim
          (Z.of_nat (length (List.filter (field_equals "tags" "featured")
                               (collection d "product")))
           + Z.of_nat (length (collection d "product"))).
Proof.
  intros Hl. rewrite featured_products_online by done. cbn [fst].
  eexists. split; [reflexivity|].
  pose proof (filter_bool_length (field_equals "tags" "featured")
                (collection d "product")) as Hle.
  rewrite length_map, length_take, length_app, !length_take.
  destruct (_ <? lim) eqn:En.
  - rewrite length_take, sort_by_length. apply Z.ltb_lt in En. lia.
  - apply Z.ltb_ge in En. simpl. lia.
Qed.

(** X5.  Over a collection that holds no document twice, what the featured
    endpoint answers is the shaping of two runs of stored documents, neither
    of which repeats a document, and the first of which holds tagged
    products only: a product is listed at most twice, and twice only if it
    is tagged [featured]. *)
Theorem featured_repeats_bounded (lim : Z) (d : database) (sent : list event) :
  1 ≤ lim ≤ 12 →
  NoDup (collection d "product") →
  ∃ first second,
    fst (featured_products (Some lim) (World (Some d) sent))
    = Json 200 (map product_to_public (first ++ second))
    ∧ NoDup first ∧ NoDup second
    ∧ first ⊆ collection d "product" ∧ second ⊆ collection d "product"
    ∧ Forall (λ doc, field_equals "tags" "featured" doc = true) first.
Proof.
  intros Hl Hnd.
  pose proof (featured_products_online lim d sent Hl) as Hon. cbn zeta in Hon.
  rewrite Hon. clear Hon. cbn [fst].
  rewrite featured_within_limit by (rewrite ?length_take; lia).
  eexists _, _. split; [reflexivity|].
  assert (Hsub1 : take (Z.to_nat lim)
            (List.filter (field_equals "tags" "featured") (collection d "product"))
          `sublist_of` collection d "product").
  { etrans; [apply sublist_take|apply filter_bool_sublist]. }
  split; [by eapply sublist_NoDup|].
  split; [|split; [by apply sublist_subseteq|split]].
  - destruct (_ <? lim); [|constructor].
    eapply sublist_NoDup; [|apply sublist_take]. by rewrite sort_by_perm.
  - destruct (_ <? lim); [|apply list_subseteq_nil].
    etrans; [apply subseteq_take|]. by rewrite sort_by_perm.
  - apply Forall_take, filter_bool_Forall.
Qed.

(** X6.  Whatever the request and the world, the featured endpoint leaves
    the store handle as it is and sends at most two operations, each a
    query on the products with a limit between 1 and 12: in particular the
    second query never runs with limit 0, which the store takes for "no
    limit".  It sends nothing exactly when no store is connected or the
    limit is refused. *)
Theorem featured_sends_bounded_queries (lim : option Z) (w : world) :
  ∃ queries,
    snd (featured_products lim w) = World (db w) (log w ++ queries)
    ∧ (length queries ≤ 2)%nat
    ∧ Forall bounded_find queries
    ∧ (queries = [] ↔ db w = None ∨ ¬ accepted 1 12 lim).
Proof.
  assert (Hin : ∀ v, 1 ≤ v ≤ 12 →
            ∃ queries,
              snd (featured_products (Some v) w) = World (db w) (log w ++ queries)
              ∧ (length queries ≤ 2)%nat ∧ Forall bounded_find queries
              ∧ (queries = [] ↔ db w = None)).
  { intros v Hv. destruct w as [[d|] sent].
    - rewrite featured_products_online by done. cbn [snd db log].
      eexists. split; [reflexivity|].
      destruct (_ <? v) eqn:En; simpl.
      + apply Z.ltb_lt in En. split; [lia|]. split; [|done].
        apply Forall_cons_2; [|apply Forall_cons_2; [|apply Forall_nil_2]];
          (eexists; split; [reflexivity|split; [reflexivity|simpl; lia]]).
      + split; [lia|]. split; [|done].
        apply Forall_cons_2; [|apply Forall_nil_2].
        eexists; split; [reflexivity|split; [reflexivity|simpl; lia]].
    - rewrite featured_products_offline by done. cbn [snd db log].
      exists []. rewrite app_nil_r.
      split; [done|]. split; [simpl; lia|]. split; [constructor|done]. }
  destruct lim as [v|].
  - destruct (decide (1 ≤ v ≤ 12)) as [Hv|Hv].
    + destruct (Hin v Hv) as (queries & Hw & Hlen & Hall & Hnil).
      exists queries. split; [done|]. split; [done|]. split; [done|].
      rewrite Hnil. split; [by left|]. by intros [?|Hno].
    + rewrite featured_products_refused by done. destruct w as [dbh sent].
      exists []. cbn [snd db log]. rewrite app_nil_r.
      split; [done|]. split; [simpl; lia|]. split; [constructor|].
      split; [intros _; by right|done].
  - destruct (Hin 8 ltac:(lia)) as (queries & Hw & Hlen & Hall & Hnil).
    exists queries. split; [done|]. split; [done|]. split; [done|].
    rewrite Hnil. split; [by left|]. intros [?|Hno]; [done|]. by destruct Hno.
Qed.

(** X7.  With a store and a limit within 1..12: when no product is tagged
    [featured] the answer is the newest [limit] products; when at least
    [limit] products are tagged, the answer is the first [limit] of them in
    natural order and a single query is sent. *)
Theorem featured_pure_cases (lim : Z) (d : database) (sent : list event) :
  1 ≤ lim ≤ 12 →
  let products := collection d "product" in
  let tagged := List.filter (field_equals "tags" "featured") products in
  (Forall (λ doc, field_equals "tags" "featured" doc = false) products →
   fst (featured_products (Some lim) (World (Some d) sent))
   = Json 200 (map product_to_public
        (take (Z.to_nat lim) (sort_by (before "created_at" (-1)) products))))
  ∧ (lim ≤ Z.of_nat (length tagged) →
     featured_products (Some lim) (World (Some d) sent)
     = (Json 200 (map product_to_public (take (Z.to_nat lim) tagged)),
        World (Some d)
          (sent ++ [Find (Cursor "product" [("tags", VStr "featured")] None lim)]))).
Proof.
  intros Hl products tagged.
  pose proof (featured_products_online lim d sent Hl) as Hon. cbn zeta in Hon.
  fold products in Hon. fold tagged in Hon. split.
  - intros Hnone. rewrite Hon. cbn [fst].
    assert (tagged = []) as -> by by apply filter_bool_nil.
    rewrite take_nil. simpl length. change (Z.of_nat 0) with 0.
    assert ((0 <? lim) = true) as -> by (apply Z.ltb_lt; lia).
    rewrite Z.sub_0_r. simpl app. by rewrite take_take, Nat.min_id.
  - intros Hmany. rewrite Hon.
    assert (Hlen : length (take (Z.to_nat lim) tagged) = Z.to_nat lim)
      by (rewrite length_take; lia).
    rewrite Hlen.
    destruct (Z.of_nat (Z.to_nat lim) <? lim) eqn:E;
      [apply Z.ltb_lt in E; lia|].
    rewrite app_nil_r. by rewrite take_take, Nat.min_id.
Qed.

End FeaturedMore.

(** X4 at work: three products, one of them tagged, limit 8: the answer has
    1 + 3 = 4 entries. *)
Lemma featured_count_witness :
  1 ≤ 8 ≤ 12
  ∧ ∃ body,
      fst (featured_products (H := Sample.runtime) (Some 8)
             (Sample.store [Sample.product 1 "Dado" "gadget" ["featured"] 5;
                            Sample.product 2 "Carta" "carte" [] 7;
                            Sample.product 3 "Gioco" "videogiochi" [] 9]))
      = Json 200 body
      ∧ Z.of_nat (length body) = 4.
Proof.
  split; [lia|].
  destruct (featured_count (H := Sample.runtime) 8
    (Database {["product" := [Sample.product 1 "Dado" "gadget" ["featured"] 5;
                              Sample.product 2 "Carta" "carte" [] 7;
                              Sample.product 3 "Gioco" "videogiochi" [] 9]]} 100 1000)
    [] ltac:(lia)) as (body & Hbody & Hlen).
  exists body. split; [exact Hbody|]. rewrite Hlen. reflexivity.
Defined.

(** X5 at work: two distinct products, one of them tagged, limit 8. *)
Lemma featured_repeats_bounded_witness :
  1 ≤ 8 ≤ 12
  ∧ NoDup [Sample.product 1 "Dado" "gadget" ["featured"] 5;
           Sample.product 2 "Carta" "carte" [] 7]
  ∧ ∃ first second,
      fst (featured_products (H := Sample.runtime) (Some 8)
             (Sample.store [Sample.product 1 "Dado" "gadget" ["featured"] 5;
                            Sample.product 2 "Carta" "carte" [] 7]))
      = Json 200 (map (product_to_public (H := Sample.runtime)) (first ++ second))
      ∧ NoDup first ∧ NoDup second.
Proof.
  assert (Hnd : NoDup [Sample.product 1 "Dado" "gadget" ["featured"] 5;
                       Sample.product 2 "Carta" "carte" [] 7]).
  { apply NoDup_cons. split; [|apply NoDup_singleton].
    intros Hin%list_elem_of_singleton. discriminate Hin. }
  split; [lia|]. split; [exact Hnd|].
  change (NoDup (collection
    (Database {["product" := [Sample.product 1 "Dado" "gadget" ["featured"] 5;
                              Sample.product 2 "Carta" "carte" [] 7]]} 100 1000)
    "product")) in Hnd.
  destruct (featured_repeats_bounded (H := Sample.runtime) 8 _ [] ltac:(lia) Hnd)
    as (first & second & Hbody & Hf & Hs & _).
  exists first, second. split; [exact Hbody|]. split; [exact Hf|exact Hs].
Defined.

(** X7 at work: no tagged product, limit 2: the two newest products. *)
Lemma featured_pure_cases_witness :
  1 ≤ 2 ≤ 12
  ∧ fst (featured_products (H := Sample.runtime) (Some 2)
           (Sample.store [Sample.product 2 "Carta" "carte" [] 7;
                          Sample.product 3 "Gioco" "videogiochi" [] 9;
                          Sample.product 4 "Puzzle" "gadget" [] 8]))
    = Json 200
        (map (product_to_public (H := Sample.runtime))
           [Sample.product 3 "Gioco" "videogiochi" [] 9;
            Sample.product 4 "Puzzle" "gadget" [] 8]).
Proof.
  split; [lia|].
  unfold Sample.store.
  rewrite (proj1 (featured_pure_cases (H := Sample.runtime) 2 _ [] ltac:(lia))).
  - reflexivity.
  - repeat constructor.
Defined.

(** ** The diagnostic route *)

Lemma first_chars_count (n : nat) (s : string) :
  (char_count (first_chars n s) ≤ n)%nat.
Proof.
  revert n. induction s as [|c s IH]; intros n; simpl; [lia|].
  destruct (continuation c) eqn:Ec; simpl.
  - rewrite Ec. apply IH.
  - destruct n as [|n]; simpl; [lia|]. rewrite Ec. specialize (IH n). lia.
Qed.

Lemma first_chars_prefix (n : nat) (s : string) :
  starts_with (first_chars n s) s = true.
Proof.
  revert n. induction s as [|c s IH]; intros n; simpl; [done|].
  destruct (continuation c); simpl.
  - by rewrite Ascii.eqb_refl, IH.
  - destruct n as [|n]; simpl; [done|]. by rewrite Ascii.eqb_refl, IH.
Qed.

Lemma first_chars_all (n : nat) (s : string) :
  (char_count s ≤ n)%nat → first_chars n s = s.
Proof.
  revert n. induction s as [|c s IH]; intros n; simpl; [done|].
  destruct (continuation c); simpl; intros Hn.
  - by rewrite IH.
  - destruct n as [|n]; [lia|]. rewrite IH; [done|lia].
Qed.

(** [str(e)[:50]] keeps at most 50 characters, from the start of the
    message, and all of a message that has no more. *)
Lemma short_spec (msg : string) :
  (char_count (short msg) ≤ 50)%nat
  ∧ starts_with (short msg) msg = true
  ∧ ((char_count msg ≤ 50)%nat → short msg = msg).
Proof.
  unfold short. split; [apply first_chars_count|].
  split; [apply first_chars_prefix|apply first_chars_all].
Qed.

(** The answer of [test_database], case by case. *)
Ltac probe_cases p w :=
  unfold test_database, respond, list_collection_names;
  destruct w as [[d|] sent];
  destruct p as [env [[name|]|msg] [err|]];
  cbn [db name_attr listing_error default].

(** X8.  Whatever the environment, the store and the failures of the
    handle, [GET /test] answers status 200 and leaves the world as it is:
    failures are reported inside the body, which always has the same six
    fields in the same order. *)
Theorem test_database_always_answers (p : probe) (w : world) :
  ∃ body,
    test_database p w = (Json 200 body, w)
    ∧ Dict.keys body
      = ["backend"; "database"; "database_url"; "database_name";
         "connection_status"; "collections"].
Proof.
  probe_cases p w; eexists; split; reflexivity.
Qed.

Lemma set_flag_spec p k :
  (set_flag p k = VStr "✅ Set" ↔ env_set p k)
  ∧ (set_flag p k = VStr "✅ Set" ∨ set_flag p k = VStr "❌ Not Set").
Proof.
  unfold set_flag, env_set, getenv.
  destruct (environ p !! k) as [s|] eqn:E.
  - destruct (truthy s) eqn:Et.
    + apply truthy_spec in Et. split; [|by left].
      split; [intros _; by exists s|done].
    + split; [|by right]. split; [done|].
      intros (s' & [= <-] & Hne%truthy_spec). congruence.
  - split; [|by right]. split; [done|]. by intros (s & [=] & _).
Qed.

(** X9.  The fields [database_url] and [database_name] of the diagnosis
    depend on the environment alone: each is the text for "set" exactly when
    its variable ([DATABASE_URL], [DATABASE_NAME]) is present and not empty,
    and the text for "not set" otherwise.  They are never null, and the name
    of the store handle never reaches the answer. *)
Theorem test_database_reports_environment (p : probe) (w : world) :
  ∃ body,
    test_database p w = (Json 200 body, w)
    ∧ (Dict.get "database_url" body = Some (VStr "✅ Set")
       ↔ env_set p "DATABASE_URL")
    ∧ (Dict.get "database_url" body = Some (VStr "✅ Set")
       ∨ Dict.get "database_url" body = Some (VStr "❌ Not Set"))
    ∧ (Dict.get "database_name" body = Some (VStr "✅ Set")
       ↔ env_set p "DATABASE_NAME")
    ∧ (Dict.get "database_name" body = Some (VStr "✅ Set")
       ∨ Dict.get "database_name" body = Some (VStr "❌ Not Set")).
Proof.
  assert (Hflags : ∃ body,
    test_database p w = (Json 200 body, w)
    ∧ Dict.get "database_url" body = Some (set_flag p "DATABASE_URL")
    ∧ Dict.get "database_name" body = Some (set_flag p "DATABASE_NAME")).
  { probe_cases p w; eexists; (split; [reflexivity|]); split; reflexivity. }
  destruct Hflags as (body & Hbody & Hurl & Hname).
  exists body. split; [exact Hbody|]. rewrite Hurl, Hname.
  destruct (set_flag_spec p "DATABASE_URL") as [Hu1 Hu2].
  destruct (set_flag_spec p "DATABASE_NAME") as [Hn1 Hn2].
  split; [|split; [|split]].
  - split; [intros Hx; apply Hu1; congruence|intros Hx%Hu1; by rewrite Hx].
  - destruct Hu2 as [Hx|Hx]; rewrite Hx; auto.
  - split; [intros Hx; apply Hn1; congruence|intros Hx%Hn1; by rewrite Hx].
  - destruct Hn2 as [Hx|Hx]; rewrite Hx; auto.
Qed.

(** X10.  The field [collections] of the diagnosis holds at most ten names,
    none twice, each the name of a collection of the connected store; it is
    empty unless the store is connected and neither reading [name] nor the
    listing raised. *)
Theorem test_database_lists_collections (p : probe) (w : world) :
  ∃ body names,
    test_database p w = (Json 200 body, w)
    ∧ Dict.get "collections" body = Some (VList (map VStr names))
    ∧ (length names ≤ 10)%nat
    ∧ NoDup names
    ∧ (∀ n, n ∈ names → ∃ d, db w = Some d ∧ is_Some (collections d !! n))
    ∧ (names ≠ [] →
       is_Some (db w) ∧ (∃ v, name_attr p = Done v) ∧ listing_error p = None).
Proof.
  assert (Hempty : ∀ (d : option database) (a : attempt (option value))
                     (e : option string),
    (length (@nil string) ≤ 10)%nat
    ∧ NoDup (@nil string)
    ∧ (∀ n, n ∈ @nil string → ∃ d', d = Some d' ∧ is_Some (collections d' !! n))
    ∧ (@nil string ≠ [] → is_Some d ∧ (∃ v, a = Done v) ∧ e = None)).
  { intros. split; [simpl; lia|]. split; [constructor|].
    split; [by intros n Hn%elem_of_nil|done]. }
  assert (Hnames : ∀ (d : database) (v : option value),
    (length (take 10 (map_to_list (collections d)).*1) ≤ 10)%nat
    ∧ NoDup (take 10 (map_to_list (collections d)).*1)
    ∧ (∀ n, n ∈ take 10 (map_to_list (collections d)).*1 →
         ∃ d', Some d = Some d' ∧ is_Some (collections d' !! n))
    ∧ (take 10 (map_to_list (collections d)).*1 ≠ [] →
       is_Some (Some d) ∧ (∃ v', Done v = Done v') ∧ @None string = None)).
  { intros d v. split; [rewrite length_take; lia|].
    split; [eapply sublist_NoDup; [|apply sublist_take]; apply NoDup_fst_map_to_list|].
    split; [|by eauto].
    intros n Hn%subseteq_take. exists d. split; [done|].
    apply list_elem_of_fmap in Hn as ([n' docs] & -> & Hin).
    apply elem_of_map_to_list in Hin. by eexists. }
  probe_cases p w;
    try (eexists _, []; split; [reflexivity|]; split; [reflexivity|];
         apply Hempty).
  - eexists _, _. split; [reflexivity|]. split; [reflexivity|]. apply Hnames.
  - eexists _, _. split; [reflexivity|]. split; [reflexivity|]. apply Hnames.
Qed.

(** X11.  The field [database] of the diagnosis never shows the two texts
    the handler starts from ("Not Available", "Available"): it says
    "Connected & Working" exactly when the store is connected and nothing
    raised, "Available but not initialized" exactly when there is no store,
    and otherwise a failure text made of a fixed prefix and the message cut
    by [str(e)[:50]]: at most 50 characters (not bytes), taken from its
    start, and all of a message that has no more.  [connection_status] says
    "Connected" as soon as the store is connected and [name] could be read,
    also when the listing failed. *)
Theorem test_database_status (p : probe) (w : world) :
  (∃ body text link,
    test_database p w = (Json 200 body, w)
    ∧ Dict.get "database" body = Some (VStr text)
    ∧ Dict.get "connection_status" body = Some (VStr link)
    ∧ text ≠ "❌ Not Available" ∧ text ≠ "✅ Available"
    ∧ (text = "✅ Connected & Working"
       ↔ is_Some (db w) ∧ (∃ v, name_attr p = Done v) ∧ listing_error p = None)
    ∧ (text = "⚠️  Available but not initialized" ↔ db w = None)
    ∧ (∀ msg, is_Some (db w) → name_attr p = Failed msg →
         text = "❌ Error: " +:+ short msg)
    ∧ (∀ v msg, is_Some (db w) → name_attr p = Done v →
         listing_error p = Some msg →
         text = "⚠️  Connected but Error: " +:+ short msg)
    ∧ (link = "Connected" ↔ is_Some (db w) ∧ ∃ v, name_attr p = Done v)
    ∧ (link = "Connected" ∨ link = "Not Connected"))
  ∧ (∀ msg, (char_count (short msg) ≤ 50)%nat
            ∧ starts_with (short msg) msg = true
            ∧ ((char_count msg ≤ 50)%nat → short msg = msg)).
Proof.
  split; [|apply short_spec].
  probe_cases p w; eexists _, _, _;
    (split; [reflexivity|]); (split; [reflexivity|]); (split; [reflexivity|]);
    (split; [simpl; discriminate|]); (split; [simpl; discriminate|]).
  all: repeat match goal with
    | |- _ ∧ _ => split
    | |- _ ↔ _ => split
    | |- _ → _ => intro
    end;
    repeat match goal with
    | H : _ ∧ _ |- _ => destruct H
    | H : ∃ _, _ |- _ => destruct H
    | H : is_Some None |- _ => destruct H as [? [=]]
    end;
    try discriminate; try congruence; eauto.
  all: try (simpl in *; discriminate).
Qed.

(** The diagnosis at work: a connected store whose listing fails with a
    message of 61 characters, [DATABASE_URL] set and [DATABASE_NAME] empty.
    The message is cut to 50 characters, the link is reported as connected,
    and the name of the handle is not in the answer. *)
Lemma test_database_example :
  fst (test_database
         (Probe {["DATABASE_URL" := "mongodb://localhost"; "DATABASE_NAME" := ""]}
                (Done (Some (VStr "topgames")))
                (Some "0123456789012345678901234567890123456789012345678901234567890"))
         (Sample.store []))
  = Json 200
      [("backend", VStr "✅ Running");
       ("database",
        VStr "⚠️  Connected but Error: 01234567890123456789012345678901234567890123456789");
       ("database_url", VStr "✅ Set");
       ("database_name", VStr "❌ Not Set");
       ("connection_status", VStr "Connected");
       ("collections", VList [])].
Proof. reflexivity. Qed.

(** The cut counts characters: of sixty letters of two bytes each, fifty
    are kept. *)
Lemma short_counts_characters :
  short "èèèèèèèèèèèèèèèèèèèèèèèèèèèèèèèèèèèèèèèèèèèèèèèèèèèèèèèèèèèè"
  = "èèèèèèèèèèèèèèèèèèèèèèèèèèèèèèèèèèèèèèèèèèèèèèèèèè"
  ∧ char_count "èèèèèèèèèèèèèèèèèèèèèèèèèèèèèèèèèèèèèèèèèèèèèèèèèèèèèèèèèèèè" = 60%nat
  ∧ char_count (short "èèèèèèèèèèèèèèèèèèèèèèèèèèèèèèèèèèèèèèèèèèèèèèèèèèèèèèèèèèèè")
    = 50%nat.
Proof. repeat split. Qed.
